(** * Guest threads of the Vita3K kernel: create, start, run, wake, copy stack

    A shallow embedding of [src/vita3k/kernel/src/thread/thread.cpp].
    Every function of that file is a computation over an explicit world:
    the kernel tables, guest memory, the heap of shared thread records
    and a log of the calls made on collaborators, in program order. *)

From stdpp Require Import base gmap list strings pretty.
From Stdlib Require Import ZArith Lia.

Local Open Scope Z_scope.

(** ** Machine integers *)

(** [Address], [SceSize] and register values are [uint32_t]; [SceUID] and
    priorities are [int].  Both are carried as [Z], wrap-around written
    out. *)
Abbreviation Address := Z (only parsing).
Abbreviation SceUID := Z (only parsing).
Abbreviation SceSize := Z (only parsing).

Definition to_u32 (z : Z) : Z := z mod 2 ^ 32.
Definition to_i32 (z : Z) : Z := (z + 2 ^ 31) mod 2 ^ 32 - 2 ^ 31.

Definition is_i32 (z : Z) : Prop := - 2 ^ 31 <= z < 2 ^ 31.
Definition is_u32 (z : Z) : Prop := 0 <= z < 2 ^ 32.

(** A [shared_ptr<ThreadState>]: the index of the record's cell in the
    heap of the world. *)
Abbreviation ptr := nat (only parsing).

(** ** Data of the collaborators *)

Module ThreadToDo.
Inductive t := run | step | wait | exit.
End ThreadToDo.

#[global] Instance ThreadToDo_eq_dec : EqDecision ThreadToDo.t.
Proof. solve_decision. Defined.

(** Modelled from the spec: the register file of one CPU execution backend
    ([cpu/functions.h] is not part of the sources at hand).  It holds the
    general registers, the stack pointer, the program counter, the
    thread-pointer register, the two tracing toggles and the flag read by
    [hit_breakpoint]. *)
Record CPUState := mkCPUState {
  regs : list Z;
  sp : Address;
  pc : Address;
  tpidruro : Address;
  log_code : bool;
  log_mem : bool;
  did_break : bool
}.

(** Modelled from the spec: [save_context() -> snapshot].  The snapshot is
    the register state of the backend at the moment of the call. *)
Abbreviation CPUContext := CPUState (only parsing).

Definition save_context (cpu : CPUState) : CPUContext := cpu.

(** Modelled from the spec: [write_register(n, value)], a 32-bit write to
    general register [n]. *)
Definition write_reg (cpu : CPUState) (n : nat) (v : Z) : CPUState :=
  mkCPUState (<[n := to_u32 v]> (regs cpu)) (sp cpu) (pc cpu) (tpidruro cpu)
             (log_code cpu) (log_mem cpu) (did_break cpu).

(** Modelled from the spec: [read_register(n)]. *)
Definition read_reg (cpu : CPUState) (n : nat) : Z :=
  default 0 (regs cpu !! n).

(** Modelled from the spec: [read_stack_pointer()]. *)
Definition read_sp (cpu : CPUState) : Address := sp cpu.

(** Modelled from the spec: [write_stack_pointer(value)]. *)
Definition write_sp (cpu : CPUState) (v : Address) : CPUState :=
  mkCPUState (regs cpu) (to_u32 v) (pc cpu) (tpidruro cpu)
             (log_code cpu) (log_mem cpu) (did_break cpu).

(** Modelled from the spec: [program_thread_pointer(value)]. *)
Definition write_tpidruro (cpu : CPUState) (v : Address) : CPUState :=
  mkCPUState (regs cpu) (sp cpu) (pc cpu) (to_u32 v)
             (log_code cpu) (log_mem cpu) (did_break cpu).

(** Modelled from the spec: [set_code_tracing(bool)]. *)
Definition set_log_code (cpu : CPUState) (b : bool) : CPUState :=
  mkCPUState (regs cpu) (sp cpu) (pc cpu) (tpidruro cpu)
             b (log_mem cpu) (did_break cpu).

(** Modelled from the spec: [set_memory_tracing(bool)]. *)
Definition set_log_mem (cpu : CPUState) (b : bool) : CPUState :=
  mkCPUState (regs cpu) (sp cpu) (pc cpu) (tpidruro cpu)
             (log_code cpu) b (did_break cpu).

(** Modelled from the spec: [breakpoint_hit() -> bool]. *)
Definition hit_breakpoint (cpu : CPUState) : bool := did_break cpu.

(** Modelled from the spec: guest memory, one byte per guest address, and
    the ranges the allocator has handed out ([MemState] is declared
    outside the sources at hand). *)
Record MemState := mkMemState {
  memory : Address -> Z;
  allocated : list (Address * Z)
}.

(** [memset(Ptr<void>(dst).get(mem), byte, n)]. *)
Definition memset (mem : MemState) (dst : Address) (byte n : Z) : MemState :=
  mkMemState
    (fun a => if bool_decide (dst <= a < dst + n) then byte else memory mem a)
    (allocated mem).

(** [memcpy(Ptr<void>(dst).get(mem), Ptr<void>(src).get(mem), n)]: byte
    [dst + i] receives what byte [src + i] held before the call. *)
Definition memcpy (mem : MemState) (dst src : Address) (n : Z) : MemState :=
  mkMemState
    (fun a => if bool_decide (dst <= a < dst + n)
              then memory mem (src + (a - dst)) else memory mem a)
    (allocated mem).

Module SceKernelThreadOptParam.
Record t := mk {
  size : Z;
  attr : Z
}.
End SceKernelThreadOptParam.

(** ** Thread records and kernel tables *)

Module ThreadState.
(** The fields of [ThreadState] that [thread.cpp] reads or writes.  The
    mutex and the condition variable carry no data: their use is
    recorded in the log. *)
Record t := mk {
  name : string;
  entry_point : Address;
  priority : Z;
  stack_size : Z;
  stack : option Address;
  cpu : option CPUState;
  cpu_context : option CPUState;
  to_do : ThreadToDo.t;
  waiting_threads : list ptr
}.

(** Modelled from the spec: the record [std::make_shared<ThreadState>()]
    yields.  A guest thread starts its life in [run]; every pointer is
    null and the waiter set is empty. *)
Definition fresh : t :=
  mk "" 0 0 0 None None None ThreadToDo.run [].

Definition set_name (v : string) (r : t) : t :=
  mk v (entry_point r) (priority r) (stack_size r) (stack r) (cpu r)
     (cpu_context r) (to_do r) (waiting_threads r).
Definition set_entry_point (v : Address) (r : t) : t :=
  mk (name r) v (priority r) (stack_size r) (stack r) (cpu r)
     (cpu_context r) (to_do r) (waiting_threads r).
Definition set_priority (v : Z) (r : t) : t :=
  mk (name r) (entry_point r) v (stack_size r) (stack r) (cpu r)
     (cpu_context r) (to_do r) (waiting_threads r).
Definition set_stack_size (v : Z) (r : t) : t :=
  mk (name r) (entry_point r) (priority r) v (stack r) (cpu r)
     (cpu_context r) (to_do r) (waiting_threads r).
Definition set_stack (v : option Address) (r : t) : t :=
  mk (name r) (entry_point r) (priority r) (stack_size r) v (cpu r)
     (cpu_context r) (to_do r) (waiting_threads r).
Definition set_cpu (v : option CPUState) (r : t) : t :=
  mk (name r) (entry_point r) (priority r) (stack_size r) (stack r) v
     (cpu_context r) (to_do r) (waiting_threads r).
Definition set_cpu_context (v : option CPUState) (r : t) : t :=
  mk (name r) (entry_point r) (priority r) (stack_size r) (stack r) (cpu r)
     v (to_do r) (waiting_threads r).
Definition set_to_do (v : ThreadToDo.t) (r : t) : t :=
  mk (name r) (entry_point r) (priority r) (stack_size r) (stack r) (cpu r)
     (cpu_context r) v (waiting_threads r).
Definition set_waiting_threads (v : list ptr) (r : t) : t :=
  mk (name r) (entry_point r) (priority r) (stack_size r) (stack r) (cpu r)
     (cpu_context r) (to_do r) v.
End ThreadState.

Record WaitingThreadState := mkWaiting { waiting_name : string }.

(** A [ThreadPtr]: the host thread handle together with its deleter
    [delete_thread], which captures the record of the guest thread. *)
Record ThreadPtr := mkThreadPtr { deleter_thread : ptr }.

Module KernelState.
Record t := mk {
  threads : gmap Z ptr;
  waiting_threads : gmap Z WaitingThreadState;
  running_threads : gmap Z ThreadPtr;
  wait_for_debugger : bool;
  watch_code : bool;
  watch_memory : bool;
  next_uid : Z
}.

Definition set_threads (v : gmap Z ptr) (k : t) : t :=
  mk v (waiting_threads k) (running_threads k) (wait_for_debugger k)
     (watch_code k) (watch_memory k) (next_uid k).
Definition set_waiting_threads (v : gmap Z WaitingThreadState) (k : t) : t :=
  mk (threads k) v (running_threads k) (wait_for_debugger k)
     (watch_code k) (watch_memory k) (next_uid k).
Definition set_running_threads (v : gmap Z ThreadPtr) (k : t) : t :=
  mk (threads k) (waiting_threads k) v (wait_for_debugger k)
     (watch_code k) (watch_memory k) (next_uid k).
Definition set_wait_for_debugger (v : bool) (k : t) : t :=
  mk (threads k) (waiting_threads k) (running_threads k) v
     (watch_code k) (watch_memory k) (next_uid k).
Definition set_next_uid (v : Z) (k : t) : t :=
  mk (threads k) (waiting_threads k) (running_threads k)
     (wait_for_debugger k) (watch_code k) (watch_memory k) v.
End KernelState.

(** [std::map::emplace]: an existing key keeps its value. *)
Definition emplace {V : Type} (k : Z) (v : V) (m : gmap Z V) : gmap Z V :=
  match m !! k with
  | Some _ => m
  | None => <[k := v]> m
  end.

(** ** The world and the log *)

Inductive Mutex :=
| KernelMutex
| ThreadMutex (thread : ptr).

(** One entry per call on a collaborator and per write of a run-state, in
    program order. *)
Inductive Event :=
| EvAlloc (bytes : Z) (label : string) (addr : Address)
| EvFree (addr : Address)
| EvMemset (addr : Address) (byte bytes : Z)
| EvMemcpy (dst src : Address) (bytes : Z)
| EvInitCpu (thid : SceUID) (entry stack_top : Address) (created : bool)
| EvSetLogCode (thread : ptr)
| EvSetLogMem (thread : ptr)
| EvWriteReg (thread : ptr) (n : nat) (v : Z)
| EvWriteSp (thread : ptr) (v : Address)
| EvSaveContext (thread : ptr)
| EvWriteTpidruro (thread : ptr) (v : Address)
| EvLock (m : Mutex)
| EvUnlock (m : Mutex)
| EvEmplaceThread (thid : SceUID) (thread : ptr)
| EvEmplaceWaiting (thid : SceUID)
| EvEraseWaiting (thid : SceUID)
| EvEmplaceRunning (thid : SceUID)
| EvSetToDo (thread : ptr) (v : ThreadToDo.t)
| EvOthersSetToDo (thread : ptr) (v : ThreadToDo.t)
| EvNotifyOne (thread : ptr)
| EvNotifyAll (thread : ptr)
| EvWait (thread : ptr)
| EvRun (thread : ptr) (res : Z)
| EvStep (thread : ptr) (res : Z)
| EvCreateHostThread (thid : SceUID) (label : string) (created : bool)
| EvSemPost
| EvSemWait
| EvWaitThread (thread : ptr).

#[global] Instance Mutex_eq_dec : EqDecision Mutex.
Proof. solve_decision. Defined.

#[global] Instance Event_eq_dec : EqDecision Event.
Proof. solve_decision. Defined.

Record World := mkWorld {
  kernel : KernelState.t;
  mem : MemState;
  heap : list ThreadState.t;
  trace : list Event
}.

Definition set_kernel (v : KernelState.t) (w : World) : World :=
  mkWorld v (mem w) (heap w) (trace w).
Definition set_mem (v : MemState) (w : World) : World :=
  mkWorld (kernel w) v (heap w) (trace w).
Definition set_heap (v : list ThreadState.t) (w : World) : World :=
  mkWorld (kernel w) (mem w) v (trace w).
Definition set_trace (v : list Event) (w : World) : World :=
  mkWorld (kernel w) (mem w) (heap w) v.

(** ** Computations *)

(** How a call can fail to return: a failed [assert], a null pointer
    dereferenced, [std::system_error] out of [unique_lock::unlock] on a
    lock that is not owned, or a host thread that blocks for good. *)
Inductive Fault :=
| AssertionFailed
| NullDereference
| SystemError
| Blocked.

Inductive Outcome (A : Type) :=
| Ok (a : A) (w : World)
| Stuck (f : Fault) (w : World).
Arguments Ok {A} a w.
Arguments Stuck {A} f w.

Definition M (A : Type) : Type := World -> Outcome A.

#[global] Instance M_ret : MRet M := fun A a w => Ok a w.

#[global] Instance M_bind : MBind M := fun A B f c w =>
  match c w with
  | Ok a w' => f a w'
  | Stuck e w' => Stuck e w'
  end.

Definition gets {A : Type} (f : World -> A) : M A := fun w => Ok (f w) w.
Definition modify (f : World -> World) : M unit := fun w => Ok tt (f w).
Definition throw {A : Type} (e : Fault) : M A := fun w => Stuck e w.

Definition emit (e : Event) : M unit :=
  modify (fun w => set_trace (trace w ++ [e]) w).

Definition modify_kernel (f : KernelState.t -> KernelState.t) : M unit :=
  modify (fun w => set_kernel (f (kernel w)) w).

Definition modify_mem (f : MemState -> MemState) : M unit :=
  modify (fun w => set_mem (f (mem w)) w).

(** [std::make_shared<ThreadState>()]: a new cell at the end of the heap. *)
Definition make_shared : M ptr := fun w =>
  Ok (length (heap w)) (set_heap (heap w ++ [ThreadState.fresh]) w).

(** [*thread]: the record behind a pointer. *)
Definition deref (thread : ptr) : M ThreadState.t := fun w =>
  match heap w !! thread with
  | Some r => Ok r w
  | None => Stuck NullDereference w
  end.

(** [thread->field = v]. *)
Definition assign (thread : ptr) (f : ThreadState.t -> ThreadState.t) : M unit :=
  fun w =>
    match heap w !! thread with
    | Some r => Ok tt (set_heap (<[thread := f r]> (heap w)) w)
    | None => Stuck NullDereference w
    end.

(** [*thread->cpu]: the backend of a record. *)
Definition deref_cpu (thread : ptr) : M CPUState :=
  r ← deref thread;
  match ThreadState.cpu r with
  | Some c => mret c
  | None => throw NullDereference
  end.

(** A call that updates the backend of a record in place. *)
Definition on_cpu (thread : ptr) (f : CPUState -> CPUState) : M unit :=
  c ← deref_cpu thread;
  assign thread (ThreadState.set_cpu (Some (f c))).

(** [thread->to_do = v]. *)
Definition set_to_do (thread : ptr) (v : ThreadToDo.t) : M unit :=
  assign thread (ThreadState.set_to_do v);;
  emit (EvSetToDo thread v).

(** [assert(b)]. *)
Definition assert (b : bool) : M unit :=
  if b then mret tt else throw AssertionFailed.

(** [util::find(thid, kernel.threads)]: the pointer, or null. *)
Definition find (thid : SceUID) : M (option ptr) :=
  gets (fun w => KernelState.threads (kernel w) !! thid).

(** [lock_and_find(thid, kernel.threads, kernel.mutex)]. *)
Definition lock_and_find (thid : SceUID) : M (option ptr) :=
  emit (EvLock KernelMutex);;
  found ← find thid;
  emit (EvUnlock KernelMutex);;
  mret found.

(** Following a pointer that may be null. *)
Definition non_null {A : Type} (p : option A) : M A :=
  match p with
  | Some a => mret a
  | None => throw NullDereference
  end.

(** Modelled from the spec: [kernel.get_next_uid()], the kernel-wide
    source of identifiers, a counter that is read and advanced. *)
Definition get_next_uid : M SceUID :=
  thid ← gets (fun w => KernelState.next_uid (kernel w));
  modify_kernel (KernelState.set_next_uid (to_i32 (thid + 1)));;
  mret thid.

(** ** What the sources at hand leave open *)

(** The constants of the SDK headers, the build flag of the run loop and
    the two collaborators that [create_thread] calls beyond the register
    file: the guest memory allocator and the backend factory. *)
Class Platform := {
  SCE_KERNEL_DEFAULT_PRIORITY : Z;
  SCE_KERNEL_DEFAULT_PRIORITY_USER_INTERNAL : Z;
  SCE_KERNEL_OK : Z;
  SCE_KERNEL_ERROR_ERROR : Z;
  SCE_KERNEL_ERROR_UNKNOWN_THREAD_ID : Z;
  SCE_KERNEL_ERROR_THREAD_ERROR : Z;
  USE_GDBSTUB : bool;
  alloc : MemState -> Z -> string -> Address * MemState;
  free : MemState -> Address -> MemState;
  init_cpu : SceUID -> Address -> Address -> MemState -> option CPUState
}.

(** What the environment answers while a host thread has released the
    record's lock: the result and register file a backend call comes back
    with (read by the [run] and [step] cases only), and the run-state that
    import handlers or other host threads have written meanwhile, if
    any. *)
Record EnvReply := mkEnvReply {
  res : Z;
  cpu_after : CPUState;
  written_by_others : option ThreadToDo.t
}.

(** ** thread.cpp *)

Section ThreadCpp.
Context {platform : Platform}.

Definition alloc_named (bytes : Z) (label : string) : M Address :=
  m ← gets mem;
  let '(addr, m') := alloc m bytes label in
  modify_mem (fun _ => m');;
  emit (EvAlloc bytes label addr);;
  mret addr.

(** [fmt::format("Stack for thread {} (#{})", name, thid)] and its like
    for the thread-local storage. *)
Definition stack_label (name : string) (thid : SceUID) : string :=
  "Stack for thread " +:+ name +:+ " (#" +:+ pretty thid +:+ ")".

Definition tls_label (name : string) (thid : SceUID) : string :=
  "TLS for thread " +:+ name +:+ " (#" +:+ pretty thid +:+ ")".

(** The end of the last [shared_ptr] to a record: [~ThreadState] runs and
    the deleter of its [ThreadStack] hands the stack back to the
    allocator. *)
Definition release_record (thread : ptr) : M unit :=
  r ← deref thread;
  match ThreadState.stack r with
  | Some stack => modify_mem (fun m => free m stack);; emit (EvFree stack)
  | None => mret tt
  end.

(** [raise_waiting_threads], lines 135-141. *)
Definition raise_waiting_threads (thread : ptr) : M unit :=
  r ← deref thread;
  foldr (fun t rest =>
           emit (EvLock (ThreadMutex t));;
           emit (EvNotifyOne t);;
           emit (EvUnlock (ThreadMutex t));;
           rest)
        (mret tt) (ThreadState.waiting_threads r);;
  assign thread (ThreadState.set_waiting_threads []).

(** [create_thread], lines 69-133.  The [call_svc] closure goes to the
    backend through [inject]; what the backend does with it shows up in
    the replies of the environment ([EnvReply]). *)
Definition create_thread (entry_point : Address) (name : string)
    (init_priority stack_size : Z)
    (option : option SceKernelThreadOptParam.t) : M SceUID :=
  thid ← get_next_uid;
  thread ← make_shared;
  assign thread (ThreadState.set_name name);;
  assign thread (ThreadState.set_entry_point entry_point);;
  (if negb (Z.land (to_u32 init_priority)
                   (Z.land (to_u32 SCE_KERNEL_DEFAULT_PRIORITY) 0xF0000000) =? 0)
   then assign thread (ThreadState.set_priority
          (to_i32 (init_priority - SCE_KERNEL_DEFAULT_PRIORITY
                   + SCE_KERNEL_DEFAULT_PRIORITY_USER_INTERNAL)))
   else assign thread (ThreadState.set_priority init_priority));;
  assign thread (ThreadState.set_stack_size stack_size);;
  stack ← alloc_named stack_size (stack_label name thid);
  assign thread (ThreadState.set_stack (Some stack));;
  let stack_top := to_u32 (stack + stack_size) in
  modify_mem (fun m => memset m stack 0xcc stack_size);;
  emit (EvMemset stack 0xcc stack_size);;
  m ← gets mem;
  match init_cpu thid entry_point stack_top m with
  | None =>
      emit (EvInitCpu thid entry_point stack_top false);;
      release_record thread;;
      mret SCE_KERNEL_ERROR_ERROR
  | Some c =>
      emit (EvInitCpu thid entry_point stack_top true);;
      assign thread (ThreadState.set_cpu (Some c));;
      k ← gets kernel;
      (if KernelState.watch_code k
       then on_cpu thread (fun c => set_log_code c true);;
            emit (EvSetLogCode thread)
       else mret tt);;
      (if KernelState.watch_memory k
       then on_cpu thread (fun c => set_log_mem c true);;
            emit (EvSetLogMem thread)
       else mret tt);;
      match option with
      | Some o =>
          on_cpu thread (fun c => write_reg c 0 (SceKernelThreadOptParam.attr o));;
          emit (EvWriteReg thread 0 (SceKernelThreadOptParam.attr o));;
          on_cpu thread (fun c => write_reg c 1 (SceKernelThreadOptParam.size o));;
          emit (EvWriteReg thread 1 (SceKernelThreadOptParam.size o))
      | None => mret tt
      end;;
      c ← deref_cpu thread;
      assign thread (ThreadState.set_cpu_context (Some (save_context c)));;
      emit (EvSaveContext thread);;
      tls ← alloc_named 0x800 (tls_label name thid);
      let tls_address := to_u32 (tls + 0x800) in
      on_cpu thread (fun c => write_tpidruro c tls_address);;
      emit (EvWriteTpidruro thread tls_address);;
      let waiting := mkWaiting name in
      emit (EvLock KernelMutex);;
      k ← gets kernel;
      modify_kernel (fun k =>
        KernelState.set_threads (emplace thid thread (KernelState.threads k)) k);;
      emit (EvEmplaceThread thid thread);;
      modify_kernel (fun k =>
        KernelState.set_waiting_threads
          (emplace thid waiting (KernelState.waiting_threads k)) k);;
      emit (EvEmplaceWaiting thid);;
      emit (EvUnlock KernelMutex);;
      (* an identifier that the table already holds keeps its old record:
         the new one dies with the local pointer *)
      (if bool_decide (is_Some (KernelState.threads k !! thid))
       then release_record thread else mret tt);;
      mret thid
  end.

(** How the host thread behind a [ThreadPtr] answers [SDL_WaitThread]: the
    handle is null, the thread comes to its end, or it never does. *)
Inductive HostThread := NullThread | Finishing | NeverFinishing.

(** The deleter [delete_thread] of a [ThreadPtr], lines 160-170. *)
Definition delete_thread (thread : ptr) (running_thread : HostThread) : M unit :=
  emit (EvLock (ThreadMutex thread));;
  set_to_do thread ThreadToDo.exit;;
  emit (EvUnlock (ThreadMutex thread));;
  emit (EvNotifyAll thread);;
  raise_waiting_threads thread;;
  match running_thread with
  | NullThread => mret tt
  | Finishing => emit (EvWaitThread thread)
  | NeverFinishing => throw Blocked
  end.

(** [start_thread], lines 143-181.  [created] tells whether
    [SDL_CreateThread] hands back a host thread.  A [shared_ptr] runs its
    deleter on a null pointer too, so [delete_thread] also runs when no
    host thread was created; and when the running set already holds the
    identifier, the handle dies at the return while the kernel lock is
    still held, joining a host thread that waits for that lock. *)
Definition start_thread (thid : SceUID) (arglen : SceSize) (argp : Address)
    (created : bool) : M Z :=
  emit (EvLock KernelMutex);;
  k ← gets kernel;
  match KernelState.waiting_threads k !! thid with
  | None =>
      emit (EvUnlock KernelMutex);;
      mret SCE_KERNEL_ERROR_UNKNOWN_THREAD_ID
  | Some waiting =>
      found ← find thid;
      assert (bool_decide (is_Some found));;
      thread ← non_null found;
      emit (EvCreateHostThread thid (waiting_name waiting) created);;
      if negb created then
        delete_thread thread NullThread;;
        emit (EvUnlock KernelMutex);;
        mret SCE_KERNEL_ERROR_THREAD_ERROR
      else
        modify_kernel (fun k =>
          KernelState.set_waiting_threads
            (delete thid (KernelState.waiting_threads k)) k);;
        emit (EvEraseWaiting thid);;
        modify_kernel (fun k =>
          KernelState.set_running_threads
            (emplace thid (mkThreadPtr thread) (KernelState.running_threads k)) k);;
        emit (EvEmplaceRunning thid);;
        emit EvSemWait;;
        (if bool_decide (is_Some (KernelState.running_threads k !! thid))
         then delete_thread thread NeverFinishing else mret tt);;
        emit (EvUnlock KernelMutex);;
        mret SCE_KERNEL_OK
  end.

(** [copy_stack], lines 183-205. *)
Definition copy_stack (thid thread_id : SceUID) (argp : Address) : M Address :=
  new_found ← lock_and_find thid;
  old_found ← lock_and_find thread_id;
  emit (EvLock KernelMutex);;
  old_thread ← non_null old_found;
  old_r ← deref old_thread;
  old_stack_address ← non_null (ThreadState.stack old_r);
  new_thread ← non_null new_found;
  new_r ← deref new_thread;
  new_stack_address ← non_null (ThreadState.stack new_r);
  old_cpu ← deref_cpu old_thread;
  let old_sp := read_sp old_cpu in
  let old_stack_size :=
    to_u32 (old_stack_address + ThreadState.stack_size old_r - old_sp) in
  let new_sp :=
    to_u32 (new_stack_address + ThreadState.stack_size new_r - old_stack_size) in
  modify_mem (fun m => memcpy m new_sp old_sp old_stack_size);;
  emit (EvMemcpy new_sp old_sp old_stack_size);;
  on_cpu new_thread (fun c => write_sp c new_sp);;
  emit (EvWriteSp new_thread new_sp);;
  let new_argp :=
    if (old_stack_address <? argp)
       && (to_u32 (old_stack_address + ThreadState.stack_size old_r) >? argp)
    then
      let offset :=
        to_u32 (old_stack_address + ThreadState.stack_size old_r - argp) in
      to_u32 (new_stack_address + ThreadState.stack_size new_r - offset)
    else argp in
  emit (EvUnlock KernelMutex);;
  mret new_argp.

(** What the other parties did to the record while its lock was free. *)
Definition others_write (thread : ptr) (reply : EnvReply) : M unit :=
  match written_by_others reply with
  | Some v => assign thread (ThreadState.set_to_do v);;
              emit (EvOthersSetToDo thread v)
  | None => mret tt
  end.

(** [lock.unlock()] on a [unique_lock]: throws unless the lock is owned. *)
Definition unlock (owns : bool) (m : Mutex) : M unit :=
  if owns then emit (EvUnlock m) else throw SystemError.

(** How one pass through the [run]/[step] case of the switch ends. *)
Inductive Next := Return (succeeded : bool) | Break.

(** The [run] and [step] cases of [run_thread], lines 214-240.  The test
    on the name of the thread (lines 217-219) has an empty effect. *)
Definition run_or_step (thread : ptr) (owns : bool) (reply : EnvReply) : M Next :=
  unlock owns (ThreadMutex thread);;
  r ← deref thread;
  (if bool_decide (ThreadState.to_do r = ThreadToDo.step) then
     emit (EvStep thread (res reply));;
     assign thread (ThreadState.set_cpu (Some (cpu_after reply)));;
     others_write thread reply;;
     set_to_do thread ThreadToDo.wait
   else
     emit (EvRun thread (res reply));;
     assign thread (ThreadState.set_cpu (Some (cpu_after reply)));;
     others_write thread reply);;
  (if USE_GDBSTUB then
     c ← deref_cpu thread;
     if hit_breakpoint c then set_to_do thread ThreadToDo.wait else mret tt
   else mret tt);;
  if res reply <? 0 then
    set_to_do thread ThreadToDo.exit;;
    mret (Return false)
  else
    r ← deref thread;
    if bool_decide (ThreadState.to_do r = ThreadToDo.step)
    then mret Break
    else mret (Return true).

(** The loop of [run_thread], lines 210-245.  [owns] tells whether the
    [unique_lock] of line 209 is held at the head of the switch.  Every
    backend call and every condition wait takes its reply from the
    environment; when none is left the call does not come back. *)
Fixpoint run_thread_loop (env : list EnvReply) (thread : ptr) (owns : bool)
    : M bool :=
  r ← deref thread;
  match ThreadState.to_do r with
  | ThreadToDo.exit =>
      (if owns then emit (EvUnlock (ThreadMutex thread)) else mret tt);;
      mret true
  | ThreadToDo.run | ThreadToDo.step =>
      match env with
      | [] => unlock owns (ThreadMutex thread);; throw Blocked
      | reply :: env' =>
          next ← run_or_step thread owns reply;
          match next with
          | Return succeeded => mret succeeded
          | Break => run_thread_loop env' thread false
          end
      end
  | ThreadToDo.wait =>
      (* waiting on a condition variable needs the lock *)
      if negb owns then throw SystemError else
      emit (EvWait thread);;
      match env with
      | [] => throw Blocked
      | reply :: env' =>
          others_write thread reply;;
          run_thread_loop env' thread true
      end
  end.

(** [run_thread], lines 207-246. *)
Definition run_thread (env : list EnvReply) (thread : ptr) : M bool :=
  emit (EvLock (ThreadMutex thread));;
  run_thread_loop env thread true.

(** [thread_function], lines 46-67, on the parameters that [start_thread]
    packed into [ThreadParams]. *)
Definition thread_function (thid : SceUID) (arglen : SceSize) (argp : Address)
    (env : list EnvReply) : M Z :=
  emit EvSemPost;;
  found ← lock_and_find thid;
  thread ← non_null found;
  on_cpu thread (fun c => write_reg c 0 arglen);;
  emit (EvWriteReg thread 0 arglen);;
  on_cpu thread (fun c => write_reg c 1 argp);;
  emit (EvWriteReg thread 1 argp);;
  k ← gets kernel;
  (if KernelState.wait_for_debugger k then
     set_to_do thread ThreadToDo.wait;;
     modify_kernel (KernelState.set_wait_for_debugger false)
   else mret tt);;
  succeeded ← run_thread env thread;
  assert succeeded;;
  c ← deref_cpu thread;
  let r0 := read_reg c 0 in
  emit (EvLock (ThreadMutex thread));;
  set_to_do thread ThreadToDo.exit;;
  raise_waiting_threads thread;;
  emit (EvUnlock (ThreadMutex thread));;
  mret (to_i32 r0).

End ThreadCpp.

(** ** A platform to run the model on *)

(** The end of the highest range handed out so far, from [floor] up. *)
Definition high_water (ranges : list (Address * Z)) (floor : Address) : Address :=
  foldr (fun r top => Z.max (fst r + snd r) top) floor ranges.

(** A sample allocator: every range starts where the highest one ends. *)
Definition bump_alloc (m : MemState) (bytes : Z) (label : string)
    : Address * MemState :=
  let addr := high_water (allocated m) 0x1000 in
  (addr, mkMemState (memory m) ((addr, bytes) :: allocated m)).

Definition bump_free (m : MemState) (addr : Address) : MemState :=
  mkMemState (memory m)
             (filter (fun r => negb (fst r =? addr)) (allocated m)).

(** A sample backend factory: sixteen cleared registers, the stack pointer
    at the top of the stack; no backend for a null entry point. *)
Definition sample_init_cpu (thid : SceUID) (entry stack_top : Address)
    (m : MemState) : option CPUState :=
  if entry =? 0 then None
  else Some (mkCPUState (replicate 16 0) stack_top entry 0 false false false).

(** Sample values for the constants, a release build. *)
Definition sample_platform : Platform := {|
  SCE_KERNEL_DEFAULT_PRIORITY := 0x10000100;
  SCE_KERNEL_DEFAULT_PRIORITY_USER_INTERNAL := 160;
  SCE_KERNEL_OK := 0;
  SCE_KERNEL_ERROR_ERROR := to_i32 0x80020001;
  SCE_KERNEL_ERROR_UNKNOWN_THREAD_ID := to_i32 0x80028004;
  SCE_KERNEL_ERROR_THREAD_ERROR := to_i32 0x80028000;
  USE_GDBSTUB := false;
  alloc := bump_alloc;
  free := bump_free;
  init_cpu := sample_init_cpu
|}.

Definition empty_kernel : KernelState.t :=
  KernelState.mk ∅ ∅ ∅ false false false 1.

Definition empty_world : World :=
  mkWorld empty_kernel (mkMemState (fun _ => 0) []) [] [].

(** ** Notions used by the statements *)

(** The world a call leaves behind, whether or not it returns. *)
Definition world_of {A : Type} (o : Outcome A) : World :=
  match o with
  | Ok _ w => w
  | Stuck _ w => w
  end.

(** The run-state of the record behind a pointer. *)
Definition to_do_of (w : World) (thread : ptr) : option ThreadToDo.t :=
  ThreadState.to_do <$> heap w !! thread.

(** What [raise_waiting_threads] logs for a waiter set: for each party its
    lock taken, its condition variable signalled, its lock released. *)
Definition notifications (ws : list ptr) : list Event :=
  flat_map (fun t => [EvLock (ThreadMutex t); EvNotifyOne t;
                      EvUnlock (ThreadMutex t)]) ws.

(** How often a log signals the condition variable of party [t]. *)
Definition notified (t : ptr) (tr : list Event) : nat :=
  length (filter (fun e => e = EvNotifyOne t) tr).

(** How many signals on condition variables a log holds in all. *)
Definition is_notify (e : Event) : bool :=
  match e with
  | EvNotifyOne _ => true
  | _ => false
  end.

Definition signals (tr : list Event) : nat :=
  length (List.filter is_notify tr).

(** Some [a] is logged strictly before some [b]. *)
Fixpoint occurs_before (a b : Event) (tr : list Event) : bool :=
  match tr with
  | [] => false
  | e :: tr' =>
      (bool_decide (e = a) && bool_decide (b ∈ tr')) || occurs_before a b tr'
  end.

(** The results that backend calls on a record came back with, in order. *)
Definition backend_results (thread : ptr) (tr : list Event) : list Z :=
  omap (fun e => match e with
                 | EvRun t r | EvStep t r =>
                     if bool_decide (t = thread) then Some r else None
                 | _ => None
                 end) tr.

(** How often a log steps the backend of a record by one instruction, and
    how often it waits on the condition variable of the record. *)
Definition is_step (thread : ptr) (e : Event) : bool :=
  match e with
  | EvStep t _ => bool_decide (t = thread)
  | _ => false
  end.

Definition steps_of (thread : ptr) (tr : list Event) : nat :=
  length (List.filter (is_step thread) tr).

Definition waits_of (thread : ptr) (tr : list Event) : nat :=
  length (filter (fun e => e = EvWait thread) tr).

Section Notions.
Context {platform : Platform}.

(** The reserved high range of the default priority: the priorities that
    share one of the four highest bits with [SCE_KERNEL_DEFAULT_PRIORITY]. *)
Definition in_default_priority_range (priority : Z) : bool :=
  existsb (fun i => Z.testbit priority i
                    && Z.testbit SCE_KERNEL_DEFAULT_PRIORITY i)
          [28; 29; 30; 31].

(** The backend that [create_thread] obtains in a world, if any. *)
Definition backend_of (w : World) (entry_point : Address) (name : string)
    (stack_size : Z) : option CPUState :=
  let thid := KernelState.next_uid (kernel w) in
  let '(stack, m) := alloc (mem w) stack_size (stack_label name thid) in
  init_cpu thid entry_point (to_u32 (stack + stack_size))
           (memset m stack 0xcc stack_size).

(** The backend after the tracing toggles and the option data have been
    written to it, with what these writes log. *)
Definition seeded (k : KernelState.t) (option : option SceKernelThreadOptParam.t)
    (thread : ptr) (c0 : CPUState) : CPUState * list Event :=
  let c1 := if KernelState.watch_code k then set_log_code c0 true else c0 in
  let c2 := if KernelState.watch_memory k then set_log_mem c1 true else c1 in
  let c3 := match option with
            | Some o =>
                write_reg (write_reg c2 0 (SceKernelThreadOptParam.attr o))
                          1 (SceKernelThreadOptParam.size o)
            | None => c2
            end in
  (c3,
   (if KernelState.watch_code k then [EvSetLogCode thread] else []) ++
   (if KernelState.watch_memory k then [EvSetLogMem thread] else []) ++
   match option with
   | Some o => [EvWriteReg thread 0 (SceKernelThreadOptParam.attr o);
                EvWriteReg thread 1 (SceKernelThreadOptParam.size o)]
   | None => []
   end).

(** The priority that [create_thread] stores for a requested one. *)
Definition stored_priority (init_priority : Z) : Z :=
  if in_default_priority_range init_priority
  then to_i32 (init_priority - SCE_KERNEL_DEFAULT_PRIORITY
               + SCE_KERNEL_DEFAULT_PRIORITY_USER_INTERNAL)
  else init_priority.

(** The pointer that [copy_stack] hands back for an argument pointer. *)
Definition relocate (old_base old_size new_base new_size argp : Z) : Z :=
  if (old_base <? argp) && (to_u32 (old_base + old_size) >? argp)
  then to_u32 (new_base + new_size - to_u32 (old_base + old_size - argp))
  else argp.

(** One pass through the [run]/[step] case with the lock held, on the
    record alone: the record it leaves, what it logs, how it ends. *)
Definition pass_record (r : ThreadState.t) (reply : EnvReply) : ThreadState.t :=
  let r1 := ThreadState.set_cpu (Some (cpu_after reply)) r in
  let r2 := match written_by_others reply with
            | Some v => ThreadState.set_to_do v r1
            | None => r1
            end in
  let r3 := if bool_decide (ThreadState.to_do r = ThreadToDo.step)
            then ThreadState.set_to_do ThreadToDo.wait r2 else r2 in
  let r4 := if USE_GDBSTUB && hit_breakpoint (cpu_after reply)
            then ThreadState.set_to_do ThreadToDo.wait r3 else r3 in
  if res reply <? 0 then ThreadState.set_to_do ThreadToDo.exit r4 else r4.

Definition pass_events (thread : ptr) (r : ThreadState.t) (reply : EnvReply)
    : list Event :=
  [EvUnlock (ThreadMutex thread);
   if bool_decide (ThreadState.to_do r = ThreadToDo.step)
   then EvStep thread (res reply) else EvRun thread (res reply)] ++
  match written_by_others reply with
  | Some v => [EvOthersSetToDo thread v]
  | None => []
  end ++
  (if bool_decide (ThreadState.to_do r = ThreadToDo.step)
   then [EvSetToDo thread ThreadToDo.wait] else []) ++
  (if USE_GDBSTUB && hit_breakpoint (cpu_after reply)
   then [EvSetToDo thread ThreadToDo.wait] else []) ++
  (if res reply <? 0 then [EvSetToDo thread ThreadToDo.exit] else []).

Definition pass_next (r : ThreadState.t) (reply : EnvReply) : Next :=
  if res reply <? 0 then Return false
  else if bool_decide (ThreadState.to_do (pass_record r reply) = ThreadToDo.step)
       then Break else Return true.

(** Every pending identifier is registered, and every registered
    identifier leads to a record. *)
Definition pending_registered (w : World) : Prop :=
  (forall thid, is_Some (KernelState.waiting_threads (kernel w) !! thid) ->
                is_Some (KernelState.threads (kernel w) !! thid)) /\
  (forall thid thread, KernelState.threads (kernel w) !! thid = Some thread ->
                       is_Some (heap w !! thread)).

(** From [w] to [w'] the thread table has kept all its entries, its new
    entries lead to records, the pending set has gained registered
    identifiers only, and no record has gone. *)
Definition registry_grows (w w' : World) : Prop :=
  (forall thid thread,
     KernelState.threads (kernel w) !! thid = Some thread ->
     KernelState.threads (kernel w') !! thid = Some thread) /\
  (forall thid thread,
     KernelState.threads (kernel w') !! thid = Some thread ->
     KernelState.threads (kernel w) !! thid = Some thread
     \/ is_Some (heap w' !! thread)) /\
  (forall thid,
     is_Some (KernelState.waiting_threads (kernel w') !! thid) ->
     is_Some (KernelState.waiting_threads (kernel w) !! thid)
     \/ is_Some (KernelState.threads (kernel w') !! thid)) /\
  (length (heap w) <= length (heap w'))%nat.

(** A computation that, returning or not, leaves [registry_grows] between
    the world it starts in and the world it leaves. *)
Definition keeps_registry {A : Type} (c : M A) : Prop :=
  forall w, registry_grows w (world_of (c w)).

(** The calls that thread.cpp offers, with what the environment
    contributes to each. *)
Inductive Call :=
| CallCreateThread (entry_point : Address) (name : string)
    (init_priority stack_size : Z) (option : option SceKernelThreadOptParam.t)
| CallStartThread (thid : SceUID) (arglen : SceSize) (argp : Address)
    (created : bool)
| CallCopyStack (thid thread_id : SceUID) (argp : Address)
| CallRaiseWaitingThreads (thread : ptr)
| CallRunThread (env : list EnvReply) (thread : ptr)
| CallThreadFunction (thid : SceUID) (arglen : SceSize) (argp : Address)
    (env : list EnvReply)
| CallDeleteThread (thread : ptr) (running_thread : HostThread).

(** The world after a call, whether it returned or not. *)
Definition after (c : Call) (w : World) : World :=
  match c with
  | CallCreateThread entry_point name init_priority stack_size option =>
      world_of (create_thread entry_point name init_priority stack_size
                              option w)
  | CallStartThread thid arglen argp created =>
      world_of (start_thread thid arglen argp created w)
  | CallCopyStack thid thread_id argp =>
      world_of (copy_stack thid thread_id argp w)
  | CallRaiseWaitingThreads thread =>
      world_of (raise_waiting_threads thread w)
  | CallRunThread env thread => world_of (run_thread env thread w)
  | CallThreadFunction thid arglen argp env =>
      world_of (thread_function thid arglen argp env w)
  | CallDeleteThread thread running_thread =>
      world_of (delete_thread thread running_thread w)
  end.

(** The worlds that calls of thread.cpp lead to from a kernel without
    threads. *)
Inductive reachable : World -> Prop :=
| reachable_boot (w : World) :
    KernelState.threads (kernel w) = ∅ ->
    KernelState.waiting_threads (kernel w) = ∅ ->
    reachable w
| reachable_call (c : Call) (w : World) :
    reachable w -> reachable (after c w).

End Notions.

(** The snapshot of a record holds a thread pointer that the log shows to
    have been programmed before the snapshot was taken. *)
Definition snapshot_reflects_thread_pointer (w : World) (thread : ptr) : Prop :=
  exists r v,
    heap w !! thread = Some r /\
    occurs_before (EvWriteTpidruro thread v) (EvSaveContext thread) (trace w)
    = true /\
    tpidruro <$> ThreadState.cpu_context r = Some v.

(** The backend that [sample_init_cpu] builds for the first thread of
    [empty_world] with a stack of sixteen bytes. *)
Definition sample_cpu : CPUState :=
  mkCPUState (replicate 16 0) 4112 0x8000 0 false false false.

(** A record in a given run-state with a given waiter set, over the sample
    backend, and a world whose only record it is, registered under the
    identifier 1 and not pending. *)
Definition sample_record (v : ThreadToDo.t) (ws : list ptr) : ThreadState.t :=
  ThreadState.mk "main" 0x8000 64 16 (Some 4096) (Some sample_cpu)
                 (Some sample_cpu) v ws.

Definition sample_world (debugger : bool) (r : ThreadState.t) : World :=
  mkWorld (KernelState.mk {[ 1 := 0%nat ]} ∅ ∅ debugger false false 2)
          (mkMemState (fun _ => 0) [(4096, 16)]) [r] [].

(** Two registered threads: the first has used twelve bytes of its
    sixteen-byte stack at 4096, the second has an untouched stack of
    thirty-two bytes at 8192; every byte of memory holds its address
    modulo 251. *)
Definition two_thread_world : World :=
  mkWorld
    (KernelState.mk {[ 1 := 0%nat; 2 := 1%nat ]} ∅ ∅ false false false 3)
    (mkMemState (fun a => a mod 251) [(8192, 32); (4096, 16)])
    [ThreadState.mk "old" 0x8000 64 16 (Some 4096)
       (Some (mkCPUState (replicate 16 0) 4100 0x8000 0 false false false))
       None ThreadToDo.run [];
     ThreadState.mk "new" 0x9000 64 32 (Some 8192)
       (Some (mkCPUState (replicate 16 0) 8224 0x9000 0 false false false))
       None ThreadToDo.run []]
    [].

(** A kernel at boot that is to pause its first thread for a debugger, and
    the world after a thread was created there and a first attempt to
    start it found no host thread to be had. *)
Definition debugger_world : World :=
  set_kernel (KernelState.set_wait_for_debugger true empty_kernel) empty_world.

Definition retried_world : World :=
  after (platform := sample_platform) (CallStartThread 1 0 0 false)
    (after (platform := sample_platform) (CallCreateThread 0x8000 "main" 64 16 None)
           debugger_world).

(** A backend call that comes back with [result], nobody else having
    touched the record. *)
Definition quiet_reply (result : Z) : EnvReply :=
  mkEnvReply result sample_cpu None.

(** A world whose only thread has been created and not yet started: its
    record is registered under the identifier 1, which is pending. *)
Definition pending_world : World :=
  mkWorld (KernelState.mk {[ 1 := 0%nat ]} {[ 1 := mkWaiting "main" ]} ∅
                          false false false 2)
          (mkMemState (fun _ => 0) [(4096, 16)])
          [sample_record ThreadToDo.run [1; 2]%nat] [].

(** ** Running a computation one call at a time *)

Lemma lookup_last {A : Type} (h : list A) (r : A) :
  (h ++ [r]) !! length h = Some r.
Proof. by apply list_lookup_middle. Qed.

Lemma insert_last {A : Type} (h : list A) (r y : A) :
  <[length h := y]> (h ++ [r]) = h ++ [y].
Proof. rewrite insert_app_r_alt by lia. by rewrite Nat.sub_diag. Qed.

Lemma lookup_insert_same {A : Type} (h : list A) (t : nat) (r r' : A) :
  h !! t = Some r -> <[t := r']> h !! t = Some r'.
Proof. intros Hr. apply list_lookup_insert_eq. by eapply lookup_lt_Some. Qed.

Create HintDb heap.
#[local] Hint Resolve lookup_last lookup_insert_same : heap.

Lemma bind_eq {A B : Type} (c : M A) (f : A -> M B) w :
  (c ≫= f) w
  = match c w with Ok a w' => f a w' | Stuck e w' => Stuck e w' end.
Proof. reflexivity. Qed.

Lemma ret_bind {A B : Type} (a : A) (f : A -> M B) w : (mret a ≫= f) w = f a w.
Proof. reflexivity. Qed.

Lemma throw_bind {A B : Type} (e : Fault) (f : A -> M B) w :
  (throw e ≫= f) w = Stuck e w.
Proof. reflexivity. Qed.

Lemma bind_assoc {A B C : Type} (c : M A) (f : A -> M B) (g : B -> M C) w :
  ((c ≫= f) ≫= g) w = (c ≫= (fun a => f a ≫= g)) w.
Proof. rewrite !bind_eq. by destruct (c w). Qed.

Lemma emit_bind {B : Type} e (f : unit -> M B) k m h tr :
  (emit e ≫= f) (mkWorld k m h tr) = f tt (mkWorld k m h (tr ++ [e])).
Proof. reflexivity. Qed.

Lemma gets_bind {A B : Type} (g : World -> A) (f : A -> M B) w :
  (gets g ≫= f) w = f (g w) w.
Proof. reflexivity. Qed.

Lemma modify_kernel_bind {B : Type} g (f : unit -> M B) k m h tr :
  (modify_kernel g ≫= f) (mkWorld k m h tr) = f tt (mkWorld (g k) m h tr).
Proof. reflexivity. Qed.

Lemma modify_mem_bind {B : Type} g (f : unit -> M B) k m h tr :
  (modify_mem g ≫= f) (mkWorld k m h tr) = f tt (mkWorld k (g m) h tr).
Proof. reflexivity. Qed.

Lemma make_shared_bind {B : Type} (f : nat -> M B) k m h tr :
  (make_shared ≫= f) (mkWorld k m h tr)
  = f (length h) (mkWorld k m (h ++ [ThreadState.fresh]) tr).
Proof. reflexivity. Qed.

Lemma get_next_uid_bind {B : Type} (f : Z -> M B) k m h tr :
  (get_next_uid ≫= f) (mkWorld k m h tr)
  = f (KernelState.next_uid k)
      (mkWorld (KernelState.set_next_uid (to_i32 (KernelState.next_uid k + 1)) k)
               m h tr).
Proof. reflexivity. Qed.

Lemma deref_bind {B : Type} t r (f : ThreadState.t -> M B) k m h tr :
  h !! t = Some r ->
  (deref t ≫= f) (mkWorld k m h tr) = f r (mkWorld k m h tr).
Proof. intros Hr. rewrite bind_eq. unfold deref. cbn. by rewrite Hr. Qed.

Lemma assign_bind {B : Type} t r g (f : unit -> M B) k m h tr :
  h !! t = Some r ->
  (assign t g ≫= f) (mkWorld k m h tr)
  = f tt (mkWorld k m (<[t := g r]> h) tr).
Proof. intros Hr. rewrite bind_eq. unfold assign. cbn. by rewrite Hr. Qed.

Lemma deref_cpu_bind {B : Type} t r c (f : CPUState -> M B) k m h tr :
  h !! t = Some r -> ThreadState.cpu r = Some c ->
  (deref_cpu t ≫= f) (mkWorld k m h tr) = f c (mkWorld k m h tr).
Proof.
  intros Hr Hc. unfold deref_cpu.
  rewrite bind_assoc, (deref_bind _ r) by done. by rewrite Hc.
Qed.

Lemma on_cpu_bind {B : Type} t r c g (f : unit -> M B) k m h tr :
  h !! t = Some r -> ThreadState.cpu r = Some c ->
  (on_cpu t g ≫= f) (mkWorld k m h tr)
  = f tt (mkWorld k m (<[t := ThreadState.set_cpu (Some (g c)) r]> h) tr).
Proof.
  intros Hr Hc. unfold on_cpu.
  rewrite bind_assoc, (deref_cpu_bind _ r c) by done.
  by rewrite (assign_bind _ r).
Qed.

Lemma set_to_do_bind {B : Type} t r v (f : unit -> M B) k m h tr :
  h !! t = Some r ->
  (set_to_do t v ≫= f) (mkWorld k m h tr)
  = f tt (mkWorld k m (<[t := ThreadState.set_to_do v r]> h)
                  (tr ++ [EvSetToDo t v])).
Proof.
  intros Hr. unfold set_to_do.
  rewrite bind_assoc, (assign_bind _ r) by done. by rewrite emit_bind.
Qed.

(** A computation [c] is run to its end by [c ≫= mret]. *)
Lemma bind_ret {A : Type} (c : M A) w : c w = (c ≫= mret) w.
Proof. rewrite bind_eq. by destruct (c w). Qed.

Tactic Notation "mstep" uconstr(L) := etrans; [apply L | cbv beta].

Tactic Notation "mstepH" uconstr(L) :=
  etrans; [eapply L; solve [eauto with heap] | cbv beta];
  rewrite ?insert_last, ?list_insert_insert_eq.

Tactic Notation "mstepC" uconstr(L) :=
  etrans; [eapply L; [solve [eauto with heap] | reflexivity] | cbv beta];
  rewrite ?insert_last, ?list_insert_insert_eq.

Ltac proj_simpl :=
  cbn [kernel mem heap trace KernelState.threads KernelState.waiting_threads
       KernelState.running_threads KernelState.wait_for_debugger
       KernelState.watch_code KernelState.watch_memory KernelState.next_uid
       KernelState.set_threads KernelState.set_waiting_threads
       KernelState.set_running_threads KernelState.set_wait_for_debugger
       KernelState.set_next_uid].

Ltac mstep1 :=
  lazymatch goal with
  | |- (emit _ ≫= _) _ = _ => mstep emit_bind
  | |- (gets _ ≫= _) _ = _ => mstep gets_bind; proj_simpl
  | |- (modify_kernel _ ≫= _) _ = _ => mstep modify_kernel_bind
  | |- (modify_mem _ ≫= _) _ = _ => mstep modify_mem_bind
  | |- (mret _ ≫= _) _ = _ => mstep ret_bind
  | |- (throw _ ≫= _) _ = _ => mstep throw_bind
  | |- ((_ ≫= _) ≫= _) _ = _ => mstep bind_assoc
  | |- (make_shared ≫= _) _ = _ => mstep make_shared_bind
  | |- (get_next_uid ≫= _) _ = _ => mstep get_next_uid_bind; proj_simpl
  | |- (assign _ _ ≫= _) _ = _ => mstepH assign_bind
  | |- (deref _ ≫= _) _ = _ => mstepH deref_bind
  | |- (set_to_do _ _ ≫= _) _ = _ => mstepH set_to_do_bind
  | |- (on_cpu _ _ ≫= _) _ = _ => mstepC on_cpu_bind
  | |- (deref_cpu _ ≫= _) _ = _ => mstepC deref_cpu_bind
  end.

Ltac mauto := repeat mstep1.

(** ** Counting in logs *)

Lemma notified_notifications t ws :
  notified t (notifications ws) = length (filter (fun q => q = t) ws).
Proof.
  unfold notified. induction ws as [|q ws IH]; [done|].
  change (notifications (q :: ws)) with
    (EvLock (ThreadMutex q) :: EvNotifyOne q :: EvUnlock (ThreadMutex q)
       :: notifications ws).
  rewrite !filter_cons.
  repeat case_decide; simplify_eq; cbn; try done; by rewrite IH.
Qed.

Lemma occurrences_NoDup (t : nat) (ws : list nat) :
  NoDup ws ->
  length (filter (fun q => q = t) ws)
  = if bool_decide (t ∈ ws) then 1%nat else 0%nat.
Proof.
  induction 1 as [|q ws Hq Hnd IH]; [done|].
  rewrite filter_cons. destruct (decide (q = t)) as [->|Hne].
  - rewrite bool_decide_eq_true_2 by apply list_elem_of_here.
    cbn [length]. rewrite IH. by rewrite bool_decide_eq_false_2.
  - rewrite IH. apply (f_equal (fun b : bool => if b then 1%nat else 0%nat)).
    apply bool_decide_ext. rewrite elem_of_cons. intuition congruence.
Qed.

(** ** The high bits of a priority *)

Lemma testbit_high_nibble n :
  0 <= n -> Z.testbit 0xF0000000 n = (28 <=? n) && (n <=? 31).
Proof.
  intros Hn. change 0xF0000000 with (Z.shiftl 15 28).
  destruct (Z.ltb_spec n 28) as [Hlt|Hge].
  - rewrite Z.shiftl_spec_low by lia.
    symmetry. apply andb_false_iff. left. apply Z.leb_gt. lia.
  - rewrite Z.shiftl_spec by lia.
    replace (28 <=? n) with true by (symmetry; apply Z.leb_le; lia).
    destruct (Z.leb_spec n 31) as [Hle|Hgt].
    + assert (n = 28 \/ n = 29 \/ n = 30 \/ n = 31) as [->|[->|[->| ->]]] by lia;
        reflexivity.
    + apply Z.bits_above_log2; [lia|]. change (Z.log2 15) with 3. lia.
Qed.

Lemma testbit_to_u32 p n :
  0 <= n < 32 -> Z.testbit (to_u32 p) n = Z.testbit p n.
Proof. intros Hn. unfold to_u32. apply Z.mod_pow2_bits_low. lia. Qed.

Lemma masked_bit p d n :
  0 <= n ->
  Z.testbit (Z.land (to_u32 p) (Z.land (to_u32 d) 0xF0000000)) n
  = Z.testbit p n && Z.testbit d n && ((28 <=? n) && (n <=? 31)).
Proof.
  intros Hn. rewrite !Z.land_spec, testbit_high_nibble by done.
  destruct (Z.leb_spec 28 n), (Z.leb_spec n 31); cbn [andb];
    rewrite ?andb_false_r; try done.
  rewrite !testbit_to_u32 by lia. by destruct (Z.testbit p n), (Z.testbit d n).
Qed.

Lemma high_nibble_test p d :
  negb (Z.land (to_u32 p) (Z.land (to_u32 d) 0xF0000000) =? 0)
  = existsb (fun i => Z.testbit p i && Z.testbit d i) [28; 29; 30; 31].
Proof.
  destruct (existsb _ _) eqn:Hex.
  - apply existsb_exists in Hex as (i & Hi & Hb).
    apply negb_true_iff, Z.eqb_neq. intros Hz.
    assert (Z.testbit (Z.land (to_u32 p) (Z.land (to_u32 d) 0xF0000000)) i
            = true) as Hbit.
    { rewrite masked_bit by (cbn in Hi; lia). rewrite Hb. cbn in Hi.
      destruct Hi as [<-|[<-|[<-|[<-|[]]]]]; reflexivity. }
    rewrite Hz, Z.bits_0 in Hbit. discriminate.
  - apply negb_false_iff, Z.eqb_eq. apply Z.bits_inj'. intros n Hn.
    rewrite masked_bit, Z.bits_0 by done.
    cbn in Hex.
    destruct (Z.leb_spec 28 n), (Z.leb_spec n 31); cbn [andb];
      rewrite ?andb_false_r; try done.
    rewrite andb_true_r.
    assert (n = 28 \/ n = 29 \/ n = 30 \/ n = 31) as [->|[->|[->| ->]]] by lia;
      repeat (apply orb_false_iff in Hex as [? Hex]); done.
Qed.

Lemma to_i32_exact z : is_i32 z -> to_i32 z = z.
Proof.
  unfold is_i32, to_i32. intros Hz. rewrite Z.mod_small by lia. lia.
Qed.

Lemma to_u32_exact z : is_u32 z -> to_u32 z = z.
Proof. unfold is_u32, to_u32. intros Hz. by rewrite Z.mod_small by lia. Qed.

(** ** The functions of thread.cpp, call by call *)

Section Calls.
Context {platform : Platform}.

Lemma alloc_named_bind {B : Type} n l a m' (f : Z -> M B) k m h tr :
  alloc m n l = (a, m') ->
  (alloc_named n l ≫= f) (mkWorld k m h tr)
  = f a (mkWorld k m' h (tr ++ [EvAlloc n l a])).
Proof.
  intros Ha. unfold alloc_named. rewrite bind_assoc, gets_bind. cbn.
  rewrite Ha.
  by rewrite bind_assoc, modify_mem_bind, bind_assoc, emit_bind, ret_bind.
Qed.

Lemma notify_each ws w :
  foldr (fun t rest =>
           emit (EvLock (ThreadMutex t));;
           emit (EvNotifyOne t);;
           emit (EvUnlock (ThreadMutex t));;
           rest)
        (mret tt) ws w
  = Ok tt (set_trace (trace w ++ notifications ws) w).
Proof.
  unfold mbind, M_bind, mret, M_ret.
  revert w. induction ws as [|t ws IH]; intros [k m h tr]; cbn.
  - by rewrite app_nil_r.
  - cbn in IH. rewrite IH. cbn. by rewrite <- !app_assoc.
Qed.

Lemma raise_waiting_threads_bind {B : Type} t r (f : unit -> M B) k m h tr :
  h !! t = Some r ->
  (raise_waiting_threads t ≫= f) (mkWorld k m h tr)
  = f tt (mkWorld k m (<[t := ThreadState.set_waiting_threads [] r]> h)
                  (tr ++ notifications (ThreadState.waiting_threads r))).
Proof.
  intros Hr. unfold raise_waiting_threads.
  mstep bind_assoc. mstepH deref_bind. mstep bind_assoc.
  rewrite bind_eq, notify_each. cbn [set_trace kernel mem heap trace].
  by mstepH assign_bind.
Qed.

(** What [create_thread] does when the backend factory delivers. *)
Lemma create_thread_success w entry name p size opt stack m1 c0 tls m3 :
  let thid := KernelState.next_uid (kernel w) in
  let thread := length (heap w) in
  let stack_top := to_u32 (stack + size) in
  let tls_address := to_u32 (tls + 0x800) in
  alloc (mem w) size (stack_label name thid) = (stack, m1) ->
  init_cpu thid entry stack_top (memset m1 stack 0xcc size) = Some c0 ->
  alloc (memset m1 stack 0xcc size) 0x800 (tls_label name thid) = (tls, m3) ->
  let c := fst (seeded (kernel w) opt thread c0) in
  let r := ThreadState.mk name entry (stored_priority p) size (Some stack)
             (Some (write_tpidruro c tls_address)) (Some (save_context c))
             ThreadToDo.run [] in
  let k := KernelState.mk
             (emplace thid thread (KernelState.threads (kernel w)))
             (emplace thid (mkWaiting name)
                      (KernelState.waiting_threads (kernel w)))
             (KernelState.running_threads (kernel w))
             (KernelState.wait_for_debugger (kernel w))
             (KernelState.watch_code (kernel w))
             (KernelState.watch_memory (kernel w))
             (to_i32 (thid + 1)) in
  let collides :=
    bool_decide (is_Some (KernelState.threads (kernel w) !! thid)) in
  create_thread entry name p size opt w
  = Ok thid
      (mkWorld k (if collides then free m3 stack else m3) (heap w ++ [r])
         (trace w ++
          [EvAlloc size (stack_label name thid) stack;
           EvMemset stack 0xcc size;
           EvInitCpu thid entry stack_top true] ++
          snd (seeded (kernel w) opt thread c0) ++
          [EvSaveContext thread;
           EvAlloc 0x800 (tls_label name thid) tls;
           EvWriteTpidruro thread tls_address;
           EvLock KernelMutex;
           EvEmplaceThread thid thread;
           EvEmplaceWaiting thid;
           EvUnlock KernelMutex] ++
          (if collides then [EvFree stack] else []))).
Proof.
  destruct w as [[ths wts rts wfd wc wm nu] m h tr]. cbn.
  intros Ha Hc Ht.
  unfold create_thread, stored_priority, in_default_priority_range,
    release_record.
  rewrite <- high_nibble_test.
  mauto.
  replace (if negb (Z.land (to_u32 p)
                      (Z.land (to_u32 SCE_KERNEL_DEFAULT_PRIORITY) 4026531840)
                    =? 0)
           then assign (length h) (ThreadState.set_priority
                  (to_i32 (p - SCE_KERNEL_DEFAULT_PRIORITY
                           + SCE_KERNEL_DEFAULT_PRIORITY_USER_INTERNAL)))
           else assign (length h) (ThreadState.set_priority p))
    with (assign (length h) (ThreadState.set_priority
            (if negb (Z.land (to_u32 p)
                        (Z.land (to_u32 SCE_KERNEL_DEFAULT_PRIORITY) 4026531840)
                      =? 0)
             then to_i32 (p - SCE_KERNEL_DEFAULT_PRIORITY
                          + SCE_KERNEL_DEFAULT_PRIORITY_USER_INTERNAL)
             else p))) by (by destruct (negb _)).
  mauto.
  etrans; [eapply alloc_named_bind; eassumption | cbv beta].
  mauto. cbn [mem]. rewrite Hc.
  destruct wc, wm, opt as [o|]; proj_simpl; mauto.
  all: etrans; [eapply alloc_named_bind; eassumption | cbv beta]; mauto.
  all: destruct (bool_decide _); mauto.
  all: cbn [ThreadState.stack ThreadState.set_cpu ThreadState.set_cpu_context
            ThreadState.set_stack]; mauto.
  all: cbn; rewrite <- ?app_assoc; reflexivity.
Qed.

(** What [create_thread] does when there is no backend to be had: the
    tables stay as they are and the stack goes back to the allocator. *)
Lemma create_thread_failure w entry name p size opt stack m1 :
  let thid := KernelState.next_uid (kernel w) in
  let stack_top := to_u32 (stack + size) in
  alloc (mem w) size (stack_label name thid) = (stack, m1) ->
  init_cpu thid entry stack_top (memset m1 stack 0xcc size) = None ->
  create_thread entry name p size opt w
  = Ok SCE_KERNEL_ERROR_ERROR
      (mkWorld (KernelState.set_next_uid (to_i32 (thid + 1)) (kernel w))
         (free (memset m1 stack 0xcc size) stack)
         (heap w ++ [ThreadState.mk name entry (stored_priority p) size
                       (Some stack) None None ThreadToDo.run []])
         (trace w ++
          [EvAlloc size (stack_label name thid) stack;
           EvMemset stack 0xcc size;
           EvInitCpu thid entry stack_top false;
           EvFree stack])).
Proof.
  destruct w as [[ths wts rts wfd wc wm nu] m h tr]. cbn.
  intros Ha Hc.
  unfold create_thread, stored_priority, in_default_priority_range,
    release_record.
  rewrite <- high_nibble_test.
  mauto.
  destruct (negb _); mauto.
  all: etrans; [eapply alloc_named_bind; eassumption | cbv beta].
  all: mauto; cbn [mem]; rewrite Hc; mauto.
  all: cbn [ThreadState.stack ThreadState.set_stack]; mauto.
  all: cbn; rewrite <- ?app_assoc; reflexivity.
Qed.

End Calls.

(** ** create_thread *)

Section CreateThread.
Context {platform : Platform}.

Lemma emplace_fresh {V : Type} (k : Z) (v : V) (m : gmap Z V) :
  m !! k = None -> emplace k v m !! k = Some v.
Proof. intros Hk. unfold emplace. rewrite Hk. apply lookup_insert_eq. Qed.

Lemma seeded_tpidruro k option thread c0 :
  tpidruro (fst (seeded k option thread c0)) = tpidruro c0.
Proof.
  unfold seeded.
  by destruct (KernelState.watch_code k), (KernelState.watch_memory k), option.
Qed.

Lemma seeded_no_thread_pointer k option thread c0 t v :
  EvWriteTpidruro t v ∉ snd (seeded k option thread c0).
Proof.
  unfold seeded.
  destruct (KernelState.watch_code k), (KernelState.watch_memory k), option;
    cbn; intros Hin;
    repeat (apply elem_of_cons in Hin as [Hin|Hin]; [discriminate|]);
    by apply elem_of_nil in Hin.
Qed.

(** C1.  The record that [create_thread] stores under the identifier it
    returns has the requested priority moved from the default baseline to
    the internal default-user one (in [int] arithmetic, exact whenever the
    result fits an [int]) when the request lies in the reserved high range
    of the default priority, and the requested priority itself otherwise;
    with distinct baselines the stored priority is the moved one exactly
    when the request lies in that range. *)
Theorem create_thread_stores_priority (w : World) (entry_point : Address)
    (name : string) (init_priority stack_size : Z)
    (option : option SceKernelThreadOptParam.t) (c0 : CPUState) :
  0 <= stack_size ->
  KernelState.threads (kernel w) !! KernelState.next_uid (kernel w) = None ->
  backend_of w entry_point name stack_size = Some c0 ->
  exists w' thread r,
    create_thread entry_point name init_priority stack_size option w
    = Ok (KernelState.next_uid (kernel w)) w' /\
    KernelState.threads (kernel w') !! KernelState.next_uid (kernel w)
    = Some thread /\
    heap w' !! thread = Some r /\
    (in_default_priority_range init_priority = true ->
     ThreadState.priority r
     = to_i32 (init_priority - SCE_KERNEL_DEFAULT_PRIORITY
               + SCE_KERNEL_DEFAULT_PRIORITY_USER_INTERNAL)) /\
    (in_default_priority_range init_priority = true ->
     is_i32 (init_priority - SCE_KERNEL_DEFAULT_PRIORITY
             + SCE_KERNEL_DEFAULT_PRIORITY_USER_INTERNAL) ->
     ThreadState.priority r
     = init_priority - SCE_KERNEL_DEFAULT_PRIORITY
       + SCE_KERNEL_DEFAULT_PRIORITY_USER_INTERNAL) /\
    (in_default_priority_range init_priority = false ->
     ThreadState.priority r = init_priority) /\
    (is_i32 init_priority ->
     to_u32 SCE_KERNEL_DEFAULT_PRIORITY
     <> to_u32 SCE_KERNEL_DEFAULT_PRIORITY_USER_INTERNAL ->
     (ThreadState.priority r
      = to_i32 (init_priority - SCE_KERNEL_DEFAULT_PRIORITY
                + SCE_KERNEL_DEFAULT_PRIORITY_USER_INTERNAL)
      <-> in_default_priority_range init_priority = true)).
Proof.
  intros _ Hfresh Hcpu. unfold backend_of in Hcpu.
  destruct (alloc (mem w) stack_size _) as [stack m1] eqn:Ha.
  destruct (alloc (memset m1 stack 0xcc stack_size) 0x800
              (tls_label name (KernelState.next_uid (kernel w))))
    as [tls m3] eqn:Ht.
  eexists _, (length (heap w)), _. split.
  { eapply create_thread_success; eassumption. }
  cbn [kernel heap KernelState.threads].
  split; [by apply emplace_fresh|]. split; [apply lookup_last|].
  cbn [ThreadState.priority]. unfold stored_priority.
  destruct (in_default_priority_range init_priority) eqn:Hrange.
  - split; [done|]. split; [intros _ Hfits; by apply to_i32_exact|].
    split; [done|]. intros _ _. by split.
  - split; [done|]. split; [done|]. split; [done|].
    intros Hp Hne. split; [|done]. intros Heq. exfalso. apply Hne.
    unfold to_i32 in Heq. unfold is_i32 in Hp. unfold to_u32.
    pose proof (Z.div_mod (init_priority - SCE_KERNEL_DEFAULT_PRIORITY
                           + SCE_KERNEL_DEFAULT_PRIORITY_USER_INTERNAL + 2 ^ 31)
                          (2 ^ 32) ltac:(lia)) as Hdm.
    replace SCE_KERNEL_DEFAULT_PRIORITY with
      (SCE_KERNEL_DEFAULT_PRIORITY_USER_INTERNAL
       + (- ((init_priority - SCE_KERNEL_DEFAULT_PRIORITY
              + SCE_KERNEL_DEFAULT_PRIORITY_USER_INTERNAL + 2 ^ 31) / 2 ^ 32))
         * 2 ^ 32) at 1 by lia.
    apply Z_mod_plus_full.
Qed.

(** C2, as the code has it.  [create_thread] takes the snapshot after the
    tracing toggles and the option data have been written to the backend
    and before the 2048-byte block of thread-local storage is allocated and
    the thread pointer programmed to its end: the log shows the snapshot,
    the allocation and the write of the thread pointer in this order, with
    no write of the thread pointer before and no snapshot after; the
    snapshot holds the backend as it was before that write, thread pointer
    included, and the live backend differs from it by that write alone. *)
Theorem create_thread_snapshot_precedes_thread_pointer (w : World)
    (entry_point : Address) (name : string) (init_priority stack_size : Z)
    (option : option SceKernelThreadOptParam.t) (c0 : CPUState) :
  0 <= stack_size ->
  KernelState.threads (kernel w) !! KernelState.next_uid (kernel w) = None ->
  backend_of w entry_point name stack_size = Some c0 ->
  exists w' thread r tls pre post,
    let thid := KernelState.next_uid (kernel w) in
    let c := fst (seeded (kernel w) option thread c0) in
    create_thread entry_point name init_priority stack_size option w
    = Ok thid w' /\
    KernelState.threads (kernel w') !! thid = Some thread /\
    heap w' !! thread = Some r /\
    trace w'
    = trace w ++ pre ++
      [EvSaveContext thread;
       EvAlloc 0x800 (tls_label name thid) tls;
       EvWriteTpidruro thread (to_u32 (tls + 0x800))] ++ post /\
    (forall t v, EvWriteTpidruro t v ∉ pre) /\
    (forall t, EvSaveContext t ∉ post) /\
    ThreadState.cpu_context r = Some (save_context c) /\
    ThreadState.cpu r = Some (write_tpidruro c (to_u32 (tls + 0x800))) /\
    tpidruro c = tpidruro c0.
Proof.
  intros _ Hfresh Hcpu. unfold backend_of in Hcpu.
  destruct (alloc (mem w) stack_size _) as [stack m1] eqn:Ha.
  destruct (alloc (memset m1 stack 0xcc stack_size) 0x800
              (tls_label name (KernelState.next_uid (kernel w))))
    as [tls m3] eqn:Ht.
  eexists _, (length (heap w)), _, tls, _, _. cbv zeta. split.
  { rewrite (create_thread_success _ _ _ _ _ _ _ _ _ _ _ Ha Hcpu Ht).
    rewrite bool_decide_eq_false_2
      by (rewrite Hfresh; apply is_Some_None).
    rewrite app_nil_r. reflexivity. }
  cbn [kernel heap trace KernelState.threads].
  split; [by apply emplace_fresh|]. split; [apply lookup_last|].
  split.
  { rewrite (app_assoc [_; _; _] (snd _)). reflexivity. }
  split.
  { intros t v Hin. apply elem_of_app in Hin as [Hin|Hin].
    - repeat (apply elem_of_cons in Hin as [Hin|Hin]; [discriminate|]).
      by apply elem_of_nil in Hin.
    - by apply seeded_no_thread_pointer in Hin. }
  split.
  { intros t Hin.
    repeat (apply elem_of_cons in Hin as [Hin|Hin]; [discriminate|]).
    by apply elem_of_nil in Hin. }
  split; [done|]. split; [done|]. apply seeded_tpidruro.
Qed.

End CreateThread.

Lemma create_thread_stores_priority_witness :
  exists w' thread r,
    create_thread (platform := sample_platform) 0x8000 "main" 0x10000105 16 None
                  empty_world
    = Ok 1 w' /\
    KernelState.threads (kernel w') !! 1 = Some thread /\
    heap w' !! thread = Some r /\
    ThreadState.priority r = 165.
Proof.
  destruct (create_thread_stores_priority (platform := sample_platform) empty_world
              0x8000 "main" 0x10000105 16 None sample_cpu
              ltac:(lia) eq_refl eq_refl)
    as (w' & thread & r & Hrun & Htable & Hheap & _ & Hexact & _).
  exists w', thread, r. repeat split; try assumption.
  apply Hexact; [reflexivity | unfold is_i32; cbn; lia].
Defined.

Lemma create_thread_snapshot_precedes_thread_pointer_witness :
  exists w' thread r tls,
    create_thread (platform := sample_platform) 0x8000 "main" 64 16 None empty_world
    = Ok 1 w' /\
    heap w' !! thread = Some r /\
    ThreadState.cpu_context r = Some sample_cpu /\
    ThreadState.cpu r = Some (write_tpidruro sample_cpu (to_u32 (tls + 0x800))).
Proof.
  destruct (create_thread_snapshot_precedes_thread_pointer
              (platform := sample_platform) empty_world 0x8000 "main" 64 16 None
              sample_cpu ltac:(lia) eq_refl eq_refl)
    as (w' & thread & r & tls & pre & post & Hrun & Htable & Hheap & Htrace
        & _ & _ & Hctx & Hcpu & Htp).
  exists w', thread, r, tls. repeat split; assumption.
Defined.

(** C2, as the claim has it, fails: on the first thread of the empty world
    the log shows no write of the thread pointer before the snapshot, and
    the snapshot holds 0 where the backend holds the end of the block. *)
Lemma create_thread_snapshot_counterexample :
  exists w',
    create_thread (platform := sample_platform) 0x8000 "main" 64 16 None empty_world
    = Ok 1 w' /\
    KernelState.threads (kernel w') !! 1 = Some 0%nat /\
    (tpidruro <$> (heap w' !! 0%nat ≫= ThreadState.cpu)) = Some 6160 /\
    (tpidruro <$> (heap w' !! 0%nat ≫= ThreadState.cpu_context)) = Some 0 /\
    occurs_before (EvSaveContext 0)
                  (EvAlloc 0x800 "TLS for thread main (#1)" 4112) (trace w')
    = true /\
    ~ snapshot_reflects_thread_pointer w' 0.
Proof.
  eexists. split.
  { apply (create_thread_success (platform := sample_platform) empty_world
             0x8000 "main" 64 16 None 4096
             (mkMemState (fun _ => 0) [(4096, 16)]) sample_cpu 4112
             (mkMemState
                (memory (memset (mkMemState (fun _ => 0) [(4096, 16)])
                                4096 0xcc 16))
                [(4112, 0x800); (4096, 16)]));
      reflexivity. }
  cbn [kernel heap trace KernelState.threads].
  split; [reflexivity|]. split; [reflexivity|]. split; [reflexivity|].
  split; [vm_compute; reflexivity|].
  intros (r & v & Hr & Hbefore & Hv).
  cbn [heap] in Hr. injection Hr as <-.
  injection Hv as <-.
  vm_compute in Hbefore. discriminate.
Qed.

(** ** raise_waiting_threads and start_thread *)

Section WakeAndStart.
Context {platform : Platform}.

(** C7.  On a record whose waiter set holds N distinct parties,
    [raise_waiting_threads] logs, for each party in turn, its lock taken,
    its condition variable signalled once and its lock released, and
    nothing else; the only change to the world is that the waiter set of
    the record is empty, so no other field of the record and no field of
    a waiter changes; a second call, as any call on an empty waiter set,
    changes nothing at all. *)
Theorem raise_waiting_threads_notifies_each_once (thread : ptr)
    (r : ThreadState.t) (w : World) :
  heap w !! thread = Some r ->
  NoDup (ThreadState.waiting_threads r) ->
  let ws := ThreadState.waiting_threads r in
  let w' := mkWorld (kernel w) (mem w)
              (<[thread := ThreadState.set_waiting_threads [] r]> (heap w))
              (trace w ++ notifications ws) in
  raise_waiting_threads thread w = Ok tt w' /\
  (forall t, t ∈ ws -> notified t (notifications ws) = 1%nat) /\
  (forall t, t ∉ ws -> notified t (notifications ws) = 0%nat) /\
  signals (notifications ws) = length ws /\
  (forall q, q <> thread -> heap w' !! q = heap w !! q) /\
  raise_waiting_threads thread w' = Ok tt w' /\
  (ws = [] -> raise_waiting_threads thread w = Ok tt w).
Proof.
  intros Hr Hnd ws w'.
  assert (forall w0 r0, heap w0 !! thread = Some r0 ->
            raise_waiting_threads thread w0
            = Ok tt (mkWorld (kernel w0) (mem w0)
                       (<[thread := ThreadState.set_waiting_threads [] r0]>
                          (heap w0))
                       (trace w0
                        ++ notifications (ThreadState.waiting_threads r0))))
    as Hrun.
  { intros [k m h tr] r0 Hr0. rewrite bind_ret.
    by rewrite (raise_waiting_threads_bind _ r0). }
  split; [by apply Hrun|].
  split.
  { intros t Ht. rewrite notified_notifications, occurrences_NoDup by done.
    by rewrite bool_decide_eq_true_2. }
  split.
  { intros t Ht. rewrite notified_notifications, occurrences_NoDup by done.
    by rewrite bool_decide_eq_false_2. }
  split.
  { clear. unfold signals. induction ws as [|q ws IH]; [done|].
    change (notifications (q :: ws)) with
      (EvLock (ThreadMutex q) :: EvNotifyOne q :: EvUnlock (ThreadMutex q)
         :: notifications ws).
    cbn [List.filter is_notify length]. by rewrite IH. }
  split.
  { intros q Hq. subst w'. cbn [heap]. by apply list_lookup_insert_ne. }
  split.
  { rewrite (Hrun w' (ThreadState.set_waiting_threads [] r))
      by (subst w'; cbn [heap]; eauto with heap).
    subst w'. cbn. rewrite list_insert_insert_eq. by rewrite app_nil_r. }
  intros Hws. rewrite (Hrun w r Hr). fold ws. rewrite Hws.
  destruct w as [k m h tr], r as [n e p s st c cc td wt]. cbn in *. subst wt.
  rewrite list_insert_id by done. by rewrite app_nil_r.
Qed.

(** C8.  [start_thread] on an identifier that is not pending returns
    SCE_KERNEL_ERROR_UNKNOWN_THREAD_ID; the kernel with its three tables,
    the records and guest memory are as before, and all the log gains is
    the kernel lock taken and released: no host thread is asked for. *)
Theorem start_thread_unknown_thread (thid : SceUID) (arglen : SceSize)
    (argp : Address) (created : bool) (w : World) :
  KernelState.waiting_threads (kernel w) !! thid = None ->
  exists w',
    start_thread thid arglen argp created w
    = Ok SCE_KERNEL_ERROR_UNKNOWN_THREAD_ID w' /\
    kernel w' = kernel w /\
    heap w' = heap w /\
    mem w' = mem w /\
    trace w' = trace w ++ [EvLock KernelMutex; EvUnlock KernelMutex].
Proof.
  intros Hpending. destruct w as [k m h tr]. cbn in Hpending.
  eexists. split.
  { unfold start_thread. mauto. rewrite Hpending.
    rewrite (bind_ret (emit _ ≫= _)). mauto. reflexivity. }
  cbn. repeat split. by rewrite <- app_assoc.
Qed.

End WakeAndStart.

Lemma raise_waiting_threads_notifies_each_once_witness :
  raise_waiting_threads 0
    (sample_world false (sample_record ThreadToDo.run [1; 2]%nat))
  = Ok tt (set_trace (notifications [1; 2]%nat)
             (sample_world false (sample_record ThreadToDo.run []))) /\
  notified 1 (notifications [1; 2]%nat) = 1%nat /\
  raise_waiting_threads 0
    (set_trace (notifications [1; 2]%nat)
       (sample_world false (sample_record ThreadToDo.run [])))
  = Ok tt (set_trace (notifications [1; 2]%nat)
             (sample_world false (sample_record ThreadToDo.run []))).
Proof.
  destruct (raise_waiting_threads_notifies_each_once 0
              (sample_record ThreadToDo.run [1; 2]%nat)
              (sample_world false (sample_record ThreadToDo.run [1; 2]%nat))
              eq_refl ltac:(apply (bool_decide_unpack _); vm_compute; exact I))
    as (Hrun & Honce & _ & _ & _ & Hagain & _).
  split; [exact Hrun|]. split; [|exact Hagain].
  apply Honce. apply list_elem_of_here.
Defined.

Lemma start_thread_unknown_thread_witness :
  exists w',
    start_thread (platform := sample_platform) 7 0 0 true empty_world
    = Ok (to_i32 0x80028004) w' /\
    kernel w' = kernel empty_world /\
    heap w' = heap empty_world /\
    mem w' = mem empty_world /\
    trace w' = trace empty_world ++ [EvLock KernelMutex; EvUnlock KernelMutex].
Proof.
  exact (start_thread_unknown_thread (platform := sample_platform) 7 0 0 true
           empty_world eq_refl).
Defined.


(** ** copy_stack *)

Section CopyStack.
Context {platform : Platform}.

Lemma copy_stack_run w thid thread_id argp new_thread old_thread new_r old_r
    old_base new_base old_cpu new_cpu :
  KernelState.threads (kernel w) !! thid = Some new_thread ->
  KernelState.threads (kernel w) !! thread_id = Some old_thread ->
  heap w !! new_thread = Some new_r ->
  heap w !! old_thread = Some old_r ->
  ThreadState.stack old_r = Some old_base ->
  ThreadState.stack new_r = Some new_base ->
  ThreadState.cpu old_r = Some old_cpu ->
  ThreadState.cpu new_r = Some new_cpu ->
  let old_sp := read_sp old_cpu in
  let used := to_u32 (old_base + ThreadState.stack_size old_r - old_sp) in
  let new_sp := to_u32 (new_base + ThreadState.stack_size new_r - used) in
  copy_stack thid thread_id argp w
  = Ok (relocate old_base (ThreadState.stack_size old_r)
                 new_base (ThreadState.stack_size new_r) argp)
       (mkWorld (kernel w) (memcpy (mem w) new_sp old_sp used)
          (<[new_thread := ThreadState.set_cpu (Some (write_sp new_cpu new_sp))
                             new_r]> (heap w))
          (trace w ++
           [EvLock KernelMutex; EvUnlock KernelMutex;
            EvLock KernelMutex; EvUnlock KernelMutex;
            EvLock KernelMutex;
            EvMemcpy new_sp old_sp used;
            EvWriteSp new_thread new_sp;
            EvUnlock KernelMutex])).
Proof.
  destruct w as [k m h tr]. cbn [kernel heap mem trace].
  intros Hnew Hold Hnr Hor Hos Hns Hoc Hnc. cbv zeta.
  rewrite bind_ret.
  unfold copy_stack, lock_and_find, find. mauto.
  rewrite Hnew, Hold. cbn [non_null]. mauto.
  rewrite Hos. cbn [non_null]. mauto.
  rewrite Hns. cbn [non_null]. mauto.
  etrans; [eapply deref_cpu_bind; eassumption | cbv beta].
  mauto.
  etrans; [eapply on_cpu_bind; eassumption | cbv beta].
  mauto. cbn. unfold relocate. rewrite <- !app_assoc. reflexivity.
Qed.


(** C4, as the code has it.  For a source thread whose stack pointer lies
    within its stack, K bytes below the top, both stacks within the
    32-bit address space with K bytes of it below the destination top, and
    the two regions of K bytes either the same or apart: after
    [copy_stack] the K bytes below
    the top of the destination stack equal the K bytes below the top of
    the source stack (as they are after the call and as they were before
    it), the stack pointer of the destination backend is the destination
    top minus K, an argument pointer d bytes below the source top with
    0 < d < source stack size comes back d bytes below the destination
    top, and an argument pointer at or below the source base or at or above
    the source top comes back as it is. *)
Theorem copy_stack_copies_used_stack (w : World) (thid thread_id : SceUID)
    (argp : Address) (new_thread old_thread : nat)
    (new_r old_r : ThreadState.t) (old_base new_base : Address)
    (old_cpu new_cpu : CPUState) :
  KernelState.threads (kernel w) !! thid = Some new_thread ->
  KernelState.threads (kernel w) !! thread_id = Some old_thread ->
  heap w !! new_thread = Some new_r ->
  heap w !! old_thread = Some old_r ->
  ThreadState.stack old_r = Some old_base ->
  ThreadState.stack new_r = Some new_base ->
  ThreadState.cpu old_r = Some old_cpu ->
  ThreadState.cpu new_r = Some new_cpu ->
  let old_top := old_base + ThreadState.stack_size old_r in
  let new_top := new_base + ThreadState.stack_size new_r in
  let used := old_top - read_sp old_cpu in
  0 <= old_base -> old_top < 2 ^ 32 ->
  0 <= new_base -> new_top < 2 ^ 32 ->
  old_base <= read_sp old_cpu <= old_top ->
  used <= new_top ->
  (new_top - used = read_sp old_cpu \/ new_top <= read_sp old_cpu
   \/ old_top <= new_top - used) ->
  exists ret w' new_r' new_cpu',
    copy_stack thid thread_id argp w = Ok ret w' /\
    heap w' !! new_thread = Some new_r' /\
    ThreadState.cpu new_r' = Some new_cpu' /\
    read_sp new_cpu' = new_top - used /\
    (forall i, 0 <= i < used ->
       memory (mem w') (new_top - used + i)
       = memory (mem w') (old_top - used + i)) /\
    (forall i, 0 <= i < used ->
       memory (mem w') (new_top - used + i)
       = memory (mem w) (old_top - used + i)) /\
    (forall d, 0 < d < ThreadState.stack_size old_r -> argp = old_top - d ->
       d <= new_top -> ret = new_top - d) /\
    (argp <= old_base \/ old_top <= argp -> ret = argp).
Proof.
  intros Hnew Hold Hnr Hor Hos Hns Hoc Hnc old_top new_top used
    Hob Hot Hnb Hnt Hsp Hfit Hsep.
  assert (to_u32 (old_base + ThreadState.stack_size old_r - read_sp old_cpu)
          = used) as Hused by (apply to_u32_exact; unfold is_u32; lia).
  assert (to_u32 (new_base + ThreadState.stack_size new_r - used)
          = new_top - used) as Hnsp by (apply to_u32_exact; unfold is_u32; lia).
  eexists _, _, _, _. split.
  { erewrite copy_stack_run by eassumption. rewrite Hused, Hnsp. reflexivity. }
  cbn [heap mem memcpy memory].
  split; [by eapply lookup_insert_same|]. split; [reflexivity|].
  split; [cbn; apply to_u32_exact; unfold is_u32; lia|].
  split.
  { intros i Hi.
    rewrite bool_decide_eq_true_2 by lia.
    case_bool_decide; f_equal; lia. }
  split.
  { intros i Hi. rewrite bool_decide_eq_true_2 by lia. f_equal. lia. }
  unfold relocate. split.
  - intros d Hd -> Hdn.
    rewrite (to_u32_exact (old_base + _)) by (unfold is_u32; lia).
    fold old_top.
    replace (old_base <? old_top - d) with true
      by (symmetry; apply Z.ltb_lt; lia).
    replace (old_top >? old_top - d) with true
      by (symmetry; apply Z.gtb_lt; lia).
    cbn [andb]. replace (old_top - (old_top - d)) with d by lia.
    rewrite (to_u32_exact d) by (unfold is_u32; lia).
    apply to_u32_exact. unfold is_u32. lia.
  - intros Hout.
    rewrite (to_u32_exact (old_base + _)) by (unfold is_u32; lia).
    fold old_top.
    destruct (Z.ltb_spec old_base argp), (Z.gtb_spec old_top argp);
      cbn [andb]; try done; lia.
Qed.
End CopyStack.


Lemma copy_stack_copies_used_stack_witness :
  exists ret w',
    copy_stack 2 1 4102 two_thread_world = Ok ret w' /\
    (forall i, 0 <= i < 12 ->
       memory (mem w') (8224 - 12 + i) = memory (mem w') (4112 - 12 + i)) /\
    ret = 8224 - 10.
Proof.
  destruct (copy_stack_copies_used_stack
              two_thread_world 2 1 4102 1 0 _ _ 4096 8192 _ _
              eq_refl eq_refl eq_refl eq_refl eq_refl eq_refl eq_refl eq_refl
              ltac:(lia) ltac:(cbn; lia) ltac:(lia) ltac:(cbn; lia)
              ltac:(cbn; lia) ltac:(cbn; lia) ltac:(cbn; lia))
    as (ret & w' & r' & c' & Hrun & _ & _ & _ & Hbytes & _ & Harg & _).
  exists ret, w'. split; [exact Hrun|]. split; [exact Hbytes|].
  apply (Harg 10); cbn; lia.
Defined.

(** C4, as the claim has it, fails at the base of the source stack: the
    pointer 4096 lies sixteen bytes below the source top 4112, inside the
    source stack, and comes back as it is, not sixteen bytes below the
    destination top 8224. *)
Lemma copy_stack_base_pointer_counterexample :
  exists w',
    copy_stack 2 1 4096 two_thread_world = Ok 4096 w' /\
    4096 = (4096 + 16) - 16 /\
    4096 <> (8192 + 32) - 16.
Proof.
  eexists. split; [|lia].
  exact (copy_stack_run two_thread_world 2 1 4096 1 0 _ _ 4096 8192 _ _
           eq_refl eq_refl eq_refl eq_refl eq_refl eq_refl eq_refl eq_refl).
Qed.

(** ** run_thread, thread_function and the deleter *)

Section RunLoop.
Context {platform : Platform}.

Lemma others_write_bind {B : Type} t r reply (f : unit -> M B) k m h tr :
  h !! t = Some r ->
  (others_write t reply ≫= f) (mkWorld k m h tr)
  = f tt (mkWorld k m
            (<[t := match written_by_others reply with
                    | Some v => ThreadState.set_to_do v r
                    | None => r
                    end]> h)
            (tr ++ match written_by_others reply with
                   | Some v => [EvOthersSetToDo t v]
                   | None => []
                   end)).
Proof.
  intros Hr. unfold others_write. destruct (written_by_others reply) as [v|].
  - mauto. reflexivity.
  - mauto. rewrite list_insert_id by done. by rewrite app_nil_r.
Qed.

Lemma run_or_step_bind {B : Type} t r reply (f : Next -> M B) k m h tr :
  h !! t = Some r ->
  (run_or_step t true reply ≫= f) (mkWorld k m h tr)
  = f (pass_next r reply)
      (mkWorld k m (<[t := pass_record r reply]> h)
               (tr ++ pass_events t r reply)).
Proof.
  intros Hr.
  unfold run_or_step, unlock, others_write, pass_next, pass_record, pass_events,
    hit_breakpoint.
  destruct (bool_decide (ThreadState.to_do r = ThreadToDo.step)) eqn:Hstep,
    (written_by_others reply) as [v|],
    USE_GDBSTUB, (did_break (cpu_after reply)) eqn:Hbp,
    (res reply <? 0) eqn:Hres;
    repeat first
      [ progress mauto
      | progress cbn [andb ThreadState.to_do ThreadState.set_to_do
                      ThreadState.set_cpu ThreadState.cpu]
      | progress rewrite ?Hbp, ?Hstep ].
  all: try destruct v; cbn [bool_decide decide_rel]; mauto.
  all: rewrite <- ?app_assoc; cbn [app]; try reflexivity.
Qed.

Lemma backend_results_app t tr1 tr2 :
  backend_results t (tr1 ++ tr2) = backend_results t tr1 ++ backend_results t tr2.
Proof. apply omap_app. Qed.

Lemma backend_results_pass t r reply :
  backend_results t (pass_events t r reply) = [res reply].
Proof.
  unfold pass_events, backend_results.
  destruct (bool_decide (ThreadState.to_do r = ThreadToDo.step)),
    (written_by_others reply), (USE_GDBSTUB && _), (res reply <? 0);
    cbn; by rewrite bool_decide_eq_true_2.
Qed.

Lemma pass_failure r reply :
  res reply < 0 ->
  pass_next r reply = Return false /\
  ThreadState.to_do (pass_record r reply) = ThreadToDo.exit.
Proof.
  intros Hres. unfold pass_next, pass_record.
  by replace (res reply <? 0) with true by (symmetry; apply Z.ltb_lt; lia).
Qed.

Lemma pass_success r reply :
  0 <= res reply ->
  pass_next r reply <> Return false.
Proof.
  intros Hres. unfold pass_next.
  replace (res reply <? 0) with false by (symmetry; apply Z.ltb_ge; lia).
  by destruct (bool_decide _).
Qed.

Lemma to_do_of_insert k m h tr t r0 r :
  h !! t = Some r0 ->
  to_do_of (mkWorld k m (<[t := r]> h) tr) t = Some (ThreadState.to_do r).
Proof.
  intros Hr. unfold to_do_of. cbn [heap].
  by rewrite (lookup_insert_same _ _ r0).
Qed.

Lemma run_thread_loop_null env thread owns w :
  heap w !! thread = None ->
  run_thread_loop env thread owns w = Stuck NullDereference w.
Proof.
  intros Hr. destruct env; cbn [run_thread_loop];
    rewrite bind_eq; unfold deref; by rewrite Hr.
Qed.

(** The loop of [run_thread], one turn at a time. *)
Lemma run_thread_loop_turn env thread owns k m h tr r :
  h !! thread = Some r ->
  run_thread_loop env thread owns (mkWorld k m h tr)
  = match ThreadState.to_do r with
    | ThreadToDo.exit =>
        Ok true (mkWorld k m h
                   (tr ++ if owns then [EvUnlock (ThreadMutex thread)] else []))
    | ThreadToDo.wait =>
        if owns then
          match env with
          | [] => Stuck Blocked (mkWorld k m h (tr ++ [EvWait thread]))
          | reply :: env' =>
              run_thread_loop env' thread true
                (mkWorld k m
                   (<[thread := match written_by_others reply with
                                | Some v => ThreadState.set_to_do v r
                                | None => r
                                end]> h)
                   ((tr ++ [EvWait thread]) ++
                    match written_by_others reply with
                    | Some v => [EvOthersSetToDo thread v]
                    | None => []
                    end))
          end
        else Stuck SystemError (mkWorld k m h tr)
    | _ =>
        if owns then
          match env with
          | [] =>
              Stuck Blocked
                    (mkWorld k m h (tr ++ [EvUnlock (ThreadMutex thread)]))
          | reply :: env' =>
              match pass_next r reply with
              | Return succeeded =>
                  Ok succeeded
                     (mkWorld k m (<[thread := pass_record r reply]> h)
                              (tr ++ pass_events thread r reply))
              | Break =>
                  run_thread_loop env' thread false
                    (mkWorld k m (<[thread := pass_record r reply]> h)
                             (tr ++ pass_events thread r reply))
              end
          end
        else Stuck SystemError (mkWorld k m h tr)
    end.
Proof.
  intros Hr.
  destruct env as [|reply env']; cbn [run_thread_loop]; rewrite bind_ret;
    mauto.
  - destruct (ThreadState.to_do r), owns; cbn [negb]; unfold unlock; mauto;
      rewrite ?app_nil_r; reflexivity.
  - destruct (ThreadState.to_do r) eqn:Htd, owns; cbn [negb]; mauto;
      rewrite ?app_nil_r; try reflexivity.
    + etrans; [eapply (run_or_step_bind _ r); exact Hr | cbv beta].
      destruct (pass_next r reply); [mauto; reflexivity|].
      symmetry; apply bind_ret.
    + etrans; [eapply (run_or_step_bind _ r); exact Hr | cbv beta].
      destruct (pass_next r reply); [mauto; reflexivity|].
      symmetry; apply bind_ret.
    + etrans; [eapply (others_write_bind _ r); exact Hr | cbv beta].
      symmetry; apply bind_ret.
Qed.

(** Every backend call of the loop that comes back negative ends the loop
    in failure with the record at [exit]. *)
Lemma run_thread_loop_failure env :
  forall thread owns k m h tr,
  exists new,
    trace (world_of (run_thread_loop env thread owns (mkWorld k m h tr)))
    = tr ++ new /\
    forall result, result ∈ backend_results thread new -> result < 0 ->
      exists w',
        run_thread_loop env thread owns (mkWorld k m h tr) = Ok false w' /\
        to_do_of w' thread = Some ThreadToDo.exit.
Proof.
  induction env as [|reply env IH]; intros thread owns k m h tr;
    (destruct (h !! thread) as [r|] eqn:Hr;
     [rewrite (run_thread_loop_turn _ _ _ _ _ _ _ r) by done
     |rewrite run_thread_loop_null by done]).
  - destruct (ThreadState.to_do r), owns; cbn [world_of trace];
      (eexists; split; [try reflexivity; symmetry; apply app_nil_r|]);
      cbn; intros result Hin; by apply elem_of_nil in Hin.
  - exists []. split; [by rewrite app_nil_r|].
    intros result Hin. by apply elem_of_nil in Hin.
  - assert (exists new,
              trace (world_of
                match pass_next r reply with
                | Return succeeded =>
                    Ok succeeded
                       (mkWorld k m (<[thread := pass_record r reply]> h)
                                (tr ++ pass_events thread r reply))
                | Break =>
                    run_thread_loop env thread false
                      (mkWorld k m (<[thread := pass_record r reply]> h)
                               (tr ++ pass_events thread r reply))
                end) = tr ++ new /\
              forall result, result ∈ backend_results thread new ->
                result < 0 ->
                exists w',
                  match pass_next r reply with
                  | Return succeeded =>
                      Ok succeeded
                         (mkWorld k m (<[thread := pass_record r reply]> h)
                                  (tr ++ pass_events thread r reply))
                  | Break =>
                      run_thread_loop env thread false
                        (mkWorld k m (<[thread := pass_record r reply]> h)
                                 (tr ++ pass_events thread r reply))
                  end = Ok false w' /\
                  to_do_of w' thread = Some ThreadToDo.exit) as Hpass.
    { destruct (Z.lt_ge_cases (res reply) 0) as [Hneg|Hpos].
      - destruct (pass_failure r reply Hneg) as [-> Hexit].
        exists (pass_events thread r reply). split; [done|].
        intros _ _ _. eexists. split; [done|].
        rewrite (to_do_of_insert _ _ _ _ _ r) by done. by rewrite Hexit.
      - pose proof (pass_success r reply Hpos) as Hnext.
        destruct (pass_next r reply) as [succeeded|].
        + exists (pass_events thread r reply). split; [done|].
          intros result Hin Hlt. rewrite backend_results_pass in Hin.
          apply list_elem_of_singleton in Hin. lia.
        + destruct (IH thread false k m (<[thread := pass_record r reply]> h)
                      (tr ++ pass_events thread r reply))
            as (new & Htr & Hnew).
          exists (pass_events thread r reply ++ new).
          split; [by rewrite Htr, app_assoc|].
          intros result Hin Hlt.
          rewrite backend_results_app, backend_results_pass in Hin.
          apply elem_of_cons in Hin as [->|Hin]; [lia|]. by apply (Hnew result). }
    destruct (ThreadState.to_do r) eqn:Htd, owns; cbn [world_of trace];
      try exact Hpass.
    all: try (exists []; split; [by rewrite app_nil_r|];
              intros result Hin; by apply elem_of_nil in Hin).
    all: try (eexists; split; [reflexivity|];
              cbn; intros result Hin; by apply elem_of_nil in Hin).
    destruct (IH thread true k m
                (<[thread := match written_by_others reply with
                             | Some v => ThreadState.set_to_do v r
                             | None => r
                             end]> h)
                ((tr ++ [EvWait thread]) ++
                 match written_by_others reply with
                 | Some v => [EvOthersSetToDo thread v]
                 | None => []
                 end)) as (new & Htr & Hnew).
    eexists. split; [by rewrite Htr, <- !app_assoc|].
    intros result Hin Hlt. apply (Hnew result); [|done].
    rewrite !backend_results_app in Hin.
    destruct (written_by_others reply); cbn in Hin; done.
  - exists []. split; [by rewrite app_nil_r|].
    intros result Hin. by apply elem_of_nil in Hin.
Qed.

Lemma elem_of_backend_results t result tr :
  EvRun t result ∈ tr \/ EvStep t result ∈ tr ->
  result ∈ backend_results t tr.
Proof.
  intros Hin. apply list_elem_of_omap.
  destruct Hin as [Hin|Hin]; eexists; (split; [exact Hin|]);
    cbn; by rewrite bool_decide_eq_true_2.
Qed.

(** C5.  Whenever a backend call that the run loop makes on a record, be
    it [run] or [step], comes back with a negative result, [run_thread]
    returns false and leaves the record at [exit]. *)
Theorem run_thread_backend_failure (env : list EnvReply) (thread : nat)
    (w : World) (result : Z) :
  let out := run_thread env thread w in
  let new := drop (length (trace w)) (trace (world_of out)) in
  EvRun thread result ∈ new \/ EvStep thread result ∈ new ->
  result < 0 ->
  exists w', out = Ok false w' /\ to_do_of w' thread = Some ThreadToDo.exit.
Proof.
  destruct w as [k m h tr]. cbv zeta. cbn [trace].
  assert (run_thread env thread (mkWorld k m h tr)
          = run_thread_loop env thread true
              (mkWorld k m h (tr ++ [EvLock (ThreadMutex thread)]))) as ->.
  { unfold run_thread. apply emit_bind. }
  destruct (run_thread_loop_failure env thread true k m h
              (tr ++ [EvLock (ThreadMutex thread)])) as (new & Htr & Hnew).
  rewrite Htr, <- app_assoc, drop_app_length.
  intros Hin Hneg. apply (Hnew result); [|done].
  apply elem_of_backend_results.
  destruct Hin as [Hin|Hin];
    (apply elem_of_cons in Hin as [Hin|Hin]; [discriminate|]); auto.
Qed.


(** What a step does to a record in [step] when the backend comes back
    with a result that is not negative: one step, the record left in
    [wait], and the loop returns. *)
Lemma run_thread_step_returns env reply thread r k m h tr :
  h !! thread = Some r ->
  ThreadState.to_do r = ThreadToDo.step ->
  0 <= res reply ->
  run_thread (reply :: env) thread (mkWorld k m h tr)
  = Ok true (mkWorld k m (<[thread := pass_record r reply]> h)
               (tr ++ EvLock (ThreadMutex thread) :: pass_events thread r reply))
  /\ ThreadState.to_do (pass_record r reply) = ThreadToDo.wait.
Proof.
  intros Hr Hstep Hres.
  assert (ThreadState.to_do (pass_record r reply) = ThreadToDo.wait) as Hwait.
  { unfold pass_record. rewrite Hstep.
    replace (res reply <? 0) with false by (symmetry; apply Z.ltb_ge; lia).
    rewrite bool_decide_eq_true_2 by done.
    by destruct (USE_GDBSTUB && _), (written_by_others reply). }
  split; [|done].
  unfold run_thread. etrans; [apply emit_bind|].
  rewrite (run_thread_loop_turn _ _ _ _ _ _ _ r), Hstep by done.
  unfold pass_next. rewrite Hwait.
  replace (res reply <? 0) with false by (symmetry; apply Z.ltb_ge; lia).
  rewrite bool_decide_eq_false_2 by done.
  by rewrite <- app_assoc.
Qed.


Lemma delete_thread_run thread running r k m h tr :
  h !! thread = Some r ->
  delete_thread thread running (mkWorld k m h tr)
  = (match running with
     | NeverFinishing => Stuck Blocked
     | _ => Ok tt
     end)
      (mkWorld k m
         (<[thread := ThreadState.set_waiting_threads []
                        (ThreadState.set_to_do ThreadToDo.exit r)]> h)
         (tr ++ [EvLock (ThreadMutex thread); EvSetToDo thread ThreadToDo.exit;
                 EvUnlock (ThreadMutex thread); EvNotifyAll thread] ++
          notifications (ThreadState.waiting_threads r) ++
          match running with
          | Finishing => [EvWaitThread thread]
          | _ => []
          end)).
Proof.
  intros Hr. rewrite bind_ret. unfold delete_thread. mauto.
  etrans; [eapply raise_waiting_threads_bind; eauto with heap | cbv beta].
  rewrite list_insert_insert_eq. cbn [ThreadState.waiting_threads ThreadState.set_to_do].
  destruct running; mauto; rewrite <- ?app_assoc; cbn [app];
    rewrite ?app_nil_r; reflexivity.
Qed.




End RunLoop.

Lemma run_thread_backend_failure_witness :
  exists w',
    run_thread (platform := sample_platform) [quiet_reply (-1)] 0
               (sample_world false (sample_record ThreadToDo.step []))
    = Ok false w' /\
    to_do_of w' 0 = Some ThreadToDo.exit.
Proof.
  apply (run_thread_backend_failure (platform := sample_platform)
           [quiet_reply (-1)] 0
           (sample_world false (sample_record ThreadToDo.step [])) (-1));
    [right; apply (bool_decide_unpack _); vm_compute; exact I | lia].
Defined.



(** The record of the counterexample can come about by calls alone: a
    start that finds no host thread runs the deleter, which leaves the
    record at [exit] and the identifier pending; the trampoline of a
    second start then sets the record to [wait]. *)
Lemma exit_left_after_failed_start :
  reachable (platform := sample_platform) retried_world /\
  to_do_of retried_world 0 = Some ThreadToDo.exit /\
  KernelState.waiting_threads (kernel retried_world) !! 1
  = Some (mkWaiting "main") /\
  to_do_of (after (platform := sample_platform) (CallStartThread 1 0 0 true)
                  retried_world) 0
  = Some ThreadToDo.exit /\
  to_do_of (after (platform := sample_platform) (CallThreadFunction 1 0 0 [])
              (after (platform := sample_platform) (CallStartThread 1 0 0 true)
                     retried_world)) 0
  = Some ThreadToDo.wait.
Proof.
  split.
  { apply reachable_call, reachable_call, reachable_boot; reflexivity. }
  split; [vm_compute; reflexivity|].
  split; [vm_compute; reflexivity|].
  split; vm_compute; reflexivity.
Qed.

(** C6, the code at a failing input: on a record in [step], with a backend
    step that comes back with 0, the run loop steps once and sets the
    record to [wait], and then returns true: it does not go on to wait on
    the condition variable. *)
Lemma run_thread_step_returns_without_waiting :
  exists w',
    run_thread (platform := sample_platform) [quiet_reply 0] 0
               (sample_world false (sample_record ThreadToDo.step []))
    = Ok true w' /\
    to_do_of w' 0 = Some ThreadToDo.wait /\
    steps_of 0 (trace w') = 1%nat /\
    waits_of 0 (trace w') = 0%nat.
Proof.
  destruct (run_thread_step_returns (platform := sample_platform) [] (quiet_reply 0)
              0 (sample_record ThreadToDo.step [])
              (kernel (sample_world false (sample_record ThreadToDo.step [])))
              (mem (sample_world false (sample_record ThreadToDo.step [])))
              [sample_record ThreadToDo.step []] []
              eq_refl eq_refl ltac:(cbn; lia)) as [Hrun Hwait].
  eexists. split; [exact Hrun|].
  split; [reflexivity|]. split; vm_compute; reflexivity.
Qed.

(** ** The thread table and the pending set *)

Lemma registry_grows_refl w : registry_grows w w.
Proof. repeat split; auto. Qed.

Lemma registry_grows_trans w1 w2 w3 :
  registry_grows w1 w2 -> registry_grows w2 w3 -> registry_grows w1 w3.
Proof.
  intros (Ha1 & Ha2 & Ha3 & Ha4) (Hb1 & Hb2 & Hb3 & Hb4).
  split; [auto|]. split.
  { intros thid thread Hin. destruct (Hb2 _ _ Hin) as [Hin'|?]; [|by right].
    destruct (Ha2 _ _ Hin') as [?|[r Hr]]; [by left|right].
    apply lookup_lt_is_Some. apply lookup_lt_Some in Hr. lia. }
  split; [|lia].
  intros thid Hin. destruct (Hb3 _ Hin) as [Hin'|?]; [|by right].
  destruct (Ha3 _ Hin') as [?|[p Hp]]; [by left|right]. eauto.
Qed.

(** Worlds that agree on the two tables and on the number of records. *)
Lemma registry_grows_same w w' :
  KernelState.threads (kernel w') = KernelState.threads (kernel w) ->
  KernelState.waiting_threads (kernel w')
  = KernelState.waiting_threads (kernel w) ->
  length (heap w') = length (heap w) ->
  registry_grows w w'.
Proof.
  intros Ht Hw Hl. unfold registry_grows. rewrite Ht, Hw, Hl.
  repeat split; auto.
Qed.

Lemma pending_registered_grows w w' :
  pending_registered w -> registry_grows w w' -> pending_registered w'.
Proof.
  intros [Hp Hr] (H1 & H2 & H3 & H4). split.
  - intros thid Hin. destruct (H3 _ Hin) as [Hin'|?]; [|done].
    destruct (Hp _ Hin') as [p Hp']. eauto.
  - intros thid thread Hin. destruct (H2 _ _ Hin) as [Hin'|?]; [|done].
    destruct (Hr _ _ Hin') as [r Hr'].
    apply lookup_lt_is_Some. apply lookup_lt_Some in Hr'. lia.
Qed.

Lemma keeps_bind {A B : Type} (c : M A) (f : A -> M B) :
  keeps_registry c -> (forall a, keeps_registry (f a)) ->
  keeps_registry (c ≫= f).
Proof.
  intros Hc Hf w. rewrite bind_eq. specialize (Hc w).
  destruct (c w) as [a w'|e w']; [|done].
  eapply registry_grows_trans; [exact Hc|apply Hf].
Qed.

Lemma keeps_ret {A : Type} (a : A) : keeps_registry (mret a).
Proof. intros w. apply registry_grows_refl. Qed.

Lemma keeps_throw {A : Type} e : keeps_registry (throw (A := A) e).
Proof. intros w. apply registry_grows_refl. Qed.

Lemma keeps_gets {A : Type} (g : World -> A) : keeps_registry (gets g).
Proof. intros w. apply registry_grows_refl. Qed.

Lemma keeps_emit e : keeps_registry (emit e).
Proof. intros [k m h tr]. by apply registry_grows_same. Qed.

Lemma keeps_modify_mem g : keeps_registry (modify_mem g).
Proof. intros [k m h tr]. by apply registry_grows_same. Qed.

Lemma keeps_deref t : keeps_registry (deref t).
Proof.
  intros w. unfold deref. destruct (heap w !! t); apply registry_grows_refl.
Qed.

Lemma keeps_assign t g : keeps_registry (assign t g).
Proof.
  intros [k m h tr]. unfold assign. cbn [heap].
  destruct (h !! t); [|apply registry_grows_refl].
  apply registry_grows_same; cbn; try done. apply length_insert.
Qed.

Lemma keeps_non_null {A : Type} (p : option A) : keeps_registry (non_null p).
Proof. destruct p; [apply keeps_ret | apply keeps_throw]. Qed.

Lemma keeps_assert b : keeps_registry (assert b).
Proof. destruct b; [apply keeps_ret | apply keeps_throw]. Qed.

(** A change of the kernel that leaves the thread table alone and adds
    nothing to the pending set. *)
Lemma keeps_modify_kernel g :
  (forall k, KernelState.threads (g k) = KernelState.threads k) ->
  (forall k thid, is_Some (KernelState.waiting_threads (g k) !! thid) ->
                  is_Some (KernelState.waiting_threads k !! thid)) ->
  keeps_registry (modify_kernel g).
Proof.
  intros Ht Hw [k m h tr]. unfold registry_grows. cbn. rewrite Ht.
  repeat split; auto.
Qed.

Create HintDb keeps.
#[local] Hint Resolve keeps_ret keeps_throw keeps_gets keeps_emit
  keeps_modify_mem keeps_deref keeps_assign keeps_non_null keeps_assert
  : keeps.

Ltac keeps :=
  repeat first
    [ solve [auto 1 with keeps nocore]
    | apply keeps_bind; [|intros ?]
    | match goal with
      | |- keeps_registry (match ?x with _ => _ end) => destruct x
      | |- keeps_registry (let '(_, _) := ?x in _) => destruct x
      end ].

Section Registry.
Context {platform : Platform}.

Lemma keeps_deref_cpu t : keeps_registry (deref_cpu t).
Proof. unfold deref_cpu. keeps. Qed.
#[local] Hint Resolve keeps_deref_cpu : keeps.

Lemma keeps_on_cpu t g : keeps_registry (on_cpu t g).
Proof. unfold on_cpu. keeps. Qed.
#[local] Hint Resolve keeps_on_cpu : keeps.

Lemma keeps_set_to_do t v : keeps_registry (set_to_do t v).
Proof. unfold set_to_do. keeps. Qed.
#[local] Hint Resolve keeps_set_to_do : keeps.

Lemma keeps_raise_waiting_threads t : keeps_registry (raise_waiting_threads t).
Proof.
  unfold raise_waiting_threads. keeps.
  induction (ThreadState.waiting_threads a) as [|q ws IH]; cbn [foldr]; keeps.
Qed.
#[local] Hint Resolve keeps_raise_waiting_threads : keeps.

Lemma keeps_delete_thread t running : keeps_registry (delete_thread t running).
Proof. unfold delete_thread. keeps. Qed.
#[local] Hint Resolve keeps_delete_thread : keeps.

Lemma keeps_copy_stack thid thread_id argp :
  keeps_registry (copy_stack thid thread_id argp).
Proof. unfold copy_stack, lock_and_find, find. keeps. Qed.

Lemma keeps_others_write t reply : keeps_registry (others_write t reply).
Proof. unfold others_write. keeps. Qed.
#[local] Hint Resolve keeps_others_write : keeps.

Lemma keeps_unlock owns m : keeps_registry (unlock owns m).
Proof. unfold unlock. keeps. Qed.
#[local] Hint Resolve keeps_unlock : keeps.

Lemma keeps_run_or_step t owns reply : keeps_registry (run_or_step t owns reply).
Proof. unfold run_or_step. keeps. Qed.
#[local] Hint Resolve keeps_run_or_step : keeps.

Lemma keeps_run_thread_loop env :
  forall t owns, keeps_registry (run_thread_loop env t owns).
Proof.
  induction env as [|reply env IH]; intros t owns; cbn [run_thread_loop];
    keeps.
Qed.
#[local] Hint Resolve keeps_run_thread_loop : keeps.

Lemma keeps_run_thread env t : keeps_registry (run_thread env t).
Proof. unfold run_thread. keeps. Qed.
#[local] Hint Resolve keeps_run_thread : keeps.

Lemma keeps_thread_function thid arglen argp env :
  keeps_registry (thread_function thid arglen argp env).
Proof.
  unfold thread_function, lock_and_find, find. keeps.
  by apply keeps_modify_kernel.
Qed.

Lemma emplace_is_Some {V : Type} (k : Z) (v : V) (m : gmap Z V) :
  is_Some (emplace k v m !! k).
Proof.
  unfold emplace. destruct (m !! k) eqn:Hk; [by rewrite Hk|].
  rewrite lookup_insert_eq. eauto.
Qed.

Lemma emplace_lookup {V : Type} (k k' : Z) (v v' : V) (m : gmap Z V) :
  emplace k v m !! k' = Some v' ->
  m !! k' = Some v' \/ (k' = k /\ v' = v).
Proof.
  unfold emplace. destruct (m !! k) eqn:Hk; [by left|].
  destruct (decide (k = k')) as [->|Hne].
  - rewrite lookup_insert_eq. intros [= ->]. by right.
  - rewrite lookup_insert_ne by done. by left.
Qed.

Lemma emplace_keeps {V : Type} (k k' : Z) (v v' : V) (m : gmap Z V) :
  m !! k' = Some v' -> emplace k v m !! k' = Some v'.
Proof.
  intros Hk'. unfold emplace. destruct (m !! k) eqn:Hk; [done|].
  rewrite lookup_insert_ne; [done|]. intros ->. congruence.
Qed.

Lemma keeps_start_thread thid arglen argp created :
  keeps_registry (start_thread thid arglen argp created).
Proof.
  unfold start_thread, find. keeps.
  - apply keeps_modify_kernel; [done|]. intros k thid'. cbn.
    destruct (decide (thid = thid')) as [->|Hne].
    + rewrite lookup_delete_eq. by intros [? ?].
    + by rewrite lookup_delete_ne.
  - by apply keeps_modify_kernel.
Qed.

Lemma keeps_create_thread entry name p size opt :
  keeps_registry (create_thread entry name p size opt).
Proof.
  intros w.
  destruct (alloc (mem w) size (stack_label name (KernelState.next_uid (kernel w))))
    as [stack m1] eqn:Ha.
  destruct (init_cpu (KernelState.next_uid (kernel w)) entry
              (to_u32 (stack + size)) (memset m1 stack 0xcc size))
    as [c0|] eqn:Hc.
  - destruct (alloc (memset m1 stack 0xcc size) 0x800
                (tls_label name (KernelState.next_uid (kernel w))))
      as [tls m3] eqn:Ht.
    rewrite (create_thread_success _ _ _ _ _ _ _ _ _ _ _ Ha Hc Ht).
    unfold registry_grows. cbn [world_of kernel heap KernelState.threads
                                KernelState.waiting_threads].
    split; [intros thid thread; apply emplace_keeps|].
    split.
    { intros thid thread Hin. apply emplace_lookup in Hin as [?|[-> ->]];
        [by left|right]. rewrite lookup_last. eauto. }
    split; [|rewrite length_app; cbn; lia].
    intros thid Hin. destruct Hin as [v Hin].
    apply emplace_lookup in Hin as [Hin|[-> ->]]; [left; eauto|right].
    apply emplace_is_Some.
  - rewrite (create_thread_failure _ _ _ _ _ _ _ _ Ha Hc).
    unfold registry_grows. cbn. rewrite length_app. cbn.
    repeat split; auto. lia.
Qed.

Lemma after_grows c w : registry_grows w (after c w).
Proof.
  destruct c; cbn [after].
  - apply keeps_create_thread.
  - apply keeps_start_thread.
  - apply keeps_copy_stack.
  - apply keeps_raise_waiting_threads.
  - apply keeps_run_thread.
  - apply keeps_thread_function.
  - apply keeps_delete_thread.
Qed.

Lemma reachable_pending_registered w : reachable w -> pending_registered w.
Proof.
  induction 1 as [w Ht Hw|c w Hreach IH].
  - split.
    + intros thid. rewrite Hw, lookup_empty. by intros [? ?].
    + intros thid thread. by rewrite Ht, lookup_empty.
  - eapply pending_registered_grows; [exact IH|apply after_grows].
Qed.

(** [start_thread] on a pending identifier whose record is at hand. *)
Lemma start_thread_pending_run thid arglen argp created waiting thread r
    k m h tr :
  KernelState.waiting_threads k !! thid = Some waiting ->
  KernelState.threads k !! thid = Some thread ->
  h !! thread = Some r ->
  let torn := ThreadState.set_waiting_threads []
                (ThreadState.set_to_do ThreadToDo.exit r) in
  let teardown :=
    [EvLock (ThreadMutex thread); EvSetToDo thread ThreadToDo.exit;
     EvUnlock (ThreadMutex thread); EvNotifyAll thread] ++
    notifications (ThreadState.waiting_threads r) in
  let k' := KernelState.set_running_threads
              (emplace thid (mkThreadPtr thread) (KernelState.running_threads k))
              (KernelState.set_waiting_threads
                 (delete thid (KernelState.waiting_threads k)) k) in
  start_thread thid arglen argp created (mkWorld k m h tr)
  = if created then
      if bool_decide (is_Some (KernelState.running_threads k !! thid))
      then Stuck Blocked
             (mkWorld k' m (<[thread := torn]> h)
                (tr ++ [EvLock KernelMutex;
                        EvCreateHostThread thid (waiting_name waiting) true;
                        EvEraseWaiting thid; EvEmplaceRunning thid; EvSemWait]
                 ++ teardown))
      else Ok SCE_KERNEL_OK
             (mkWorld k' m h
                (tr ++ [EvLock KernelMutex;
                        EvCreateHostThread thid (waiting_name waiting) true;
                        EvEraseWaiting thid; EvEmplaceRunning thid; EvSemWait;
                        EvUnlock KernelMutex]))
    else Ok SCE_KERNEL_ERROR_THREAD_ERROR
           (mkWorld k m (<[thread := torn]> h)
              (tr ++ [EvLock KernelMutex;
                      EvCreateHostThread thid (waiting_name waiting) false]
               ++ teardown ++ [EvUnlock KernelMutex])).
Proof.
  intros Hw Ht Hr. cbv zeta.
  rewrite bind_ret. unfold start_thread, find. mauto.
  rewrite Hw. mauto. rewrite Ht.
  rewrite (bool_decide_eq_true_2 (is_Some (Some thread))) by done.
  cbn [assert non_null]. mauto.
  destruct created; cbn [negb]; mauto.
  - destruct (bool_decide (is_Some (KernelState.running_threads k !! thid)));
      mauto.
    + rewrite bind_eq, (delete_thread_run _ _ r) by done.
      cbv iota beta. rewrite <- !app_assoc. cbn [app].
      rewrite ?app_nil_r. reflexivity.
    + rewrite <- !app_assoc. reflexivity.
  - rewrite bind_eq, (delete_thread_run _ _ r) by done. cbv iota beta. mauto.
    rewrite <- !app_assoc. cbn [app]. reflexivity.
Qed.

Lemma start_thread_pending thid arglen argp created waiting thread r w :
  KernelState.waiting_threads (kernel w) !! thid = Some waiting ->
  KernelState.threads (kernel w) !! thid = Some thread ->
  heap w !! thread = Some r ->
  exists w',
    (start_thread thid arglen argp created w = Ok SCE_KERNEL_OK w'
     \/ start_thread thid arglen argp created w
        = Ok SCE_KERNEL_ERROR_THREAD_ERROR w'
     \/ start_thread thid arglen argp created w = Stuck Blocked w') /\
    KernelState.threads (kernel w') = KernelState.threads (kernel w) /\
    (KernelState.waiting_threads (kernel w')
     = KernelState.waiting_threads (kernel w)
     \/ KernelState.waiting_threads (kernel w')
        = delete thid (KernelState.waiting_threads (kernel w))).
Proof.
  destruct w as [k m h tr]. cbn [kernel heap]. intros Hw Ht Hr.
  rewrite (start_thread_pending_run _ _ _ _ _ _ _ _ _ _ _ Hw Ht Hr).
  destruct created;
    [destruct (bool_decide (is_Some (KernelState.running_threads k !! thid)))|];
    eexists; (split; [first [left; reflexivity | right; left; reflexivity | right; right; reflexivity]|]); proj_simpl; auto.
Qed.

(** C10.  In every world that calls of thread.cpp lead to from a kernel
    without threads, every pending identifier is in the thread table and
    leads to a record; [start_thread] finds its assertion true, leaves the
    thread table as it is and takes at most its own identifier out of the
    pending set; and a [create_thread] that returns either leaves both
    tables alone or logs the kernel lock taken, the record put into the
    thread table, the identifier put into the pending set and the lock
    released, in a row, after which both tables hold the identifier. *)
Theorem pending_threads_are_registered (w : World) :
  reachable w ->
  (forall thid,
     is_Some (KernelState.waiting_threads (kernel w) !! thid) ->
     exists thread r,
       KernelState.threads (kernel w) !! thid = Some thread /\
       heap w !! thread = Some r) /\
  (forall thid arglen argp created,
     let w' := world_of (start_thread thid arglen argp created w) in
     start_thread thid arglen argp created w <> Stuck AssertionFailed w' /\
     KernelState.threads (kernel w') = KernelState.threads (kernel w) /\
     (KernelState.waiting_threads (kernel w')
      = KernelState.waiting_threads (kernel w)
      \/ KernelState.waiting_threads (kernel w')
         = delete thid (KernelState.waiting_threads (kernel w)))) /\
  (forall entry_point name init_priority stack_size option ret w',
     create_thread entry_point name init_priority stack_size option w
     = Ok ret w' ->
     (KernelState.threads (kernel w') = KernelState.threads (kernel w) /\
      KernelState.waiting_threads (kernel w')
      = KernelState.waiting_threads (kernel w))
     \/ (exists thread pre post,
           trace w'
           = trace w ++ pre ++
             [EvLock KernelMutex; EvEmplaceThread ret thread;
              EvEmplaceWaiting ret; EvUnlock KernelMutex] ++ post /\
           is_Some (KernelState.threads (kernel w') !! ret) /\
           is_Some (KernelState.waiting_threads (kernel w') !! ret))).
Proof.
  intros Hreach. apply reachable_pending_registered in Hreach as [Hp Hr].
  split.
  { intros thid Hin. destruct (Hp _ Hin) as [thread Ht].
    destruct (Hr _ _ Ht) as [r Hrec]. eauto. }
  split.
  { intros thid arglen argp created. cbv zeta.
    destruct (KernelState.waiting_threads (kernel w) !! thid)
      as [waiting|] eqn:Hw.
    - destruct (Hp thid) as [thread Ht]; [by rewrite Hw|].
      destruct (Hr _ _ Ht) as [r Hrec].
      destruct (start_thread_pending thid arglen argp created _ _ _ _
                  Hw Ht Hrec) as (w' & [->|[->| ->]] & Hths & Hwts);
        cbn [world_of]; repeat split; auto; discriminate.
    - destruct w as [k m h tr]. cbn [kernel] in Hw.
      assert (start_thread thid arglen argp created (mkWorld k m h tr)
              = Ok SCE_KERNEL_ERROR_UNKNOWN_THREAD_ID
                   (mkWorld k m h
                      ((tr ++ [EvLock KernelMutex]) ++ [EvUnlock KernelMutex])))
        as ->.
      { rewrite bind_ret. unfold start_thread. mauto. rewrite Hw. mauto.
        reflexivity. }
      cbn [world_of]. proj_simpl. repeat split; auto; discriminate. }
  intros entry name p size opt ret w' Hrun.
  destruct (alloc (mem w) size
              (stack_label name (KernelState.next_uid (kernel w))))
    as [stack m1] eqn:Ha.
  destruct (init_cpu (KernelState.next_uid (kernel w)) entry
              (to_u32 (stack + size)) (memset m1 stack 0xcc size))
    as [c0|] eqn:Hc.
  - destruct (alloc (memset m1 stack 0xcc size) 0x800
                (tls_label name (KernelState.next_uid (kernel w))))
      as [tls m3] eqn:Ht.
    pose proof (create_thread_success _ entry name p size opt _ _ _ _ _
                  Ha Hc Ht) as Hok.
    cbv zeta in Hok.
    set (seeding := snd (seeded (kernel w) opt (length (heap w)) c0)) in *.
    rewrite Hok in Hrun. injection Hrun as <- <-. right.
    exists (length (heap w)),
      ([EvAlloc size (stack_label name (KernelState.next_uid (kernel w))) stack;
        EvMemset stack 0xcc size;
        EvInitCpu (KernelState.next_uid (kernel w)) entry
                  (to_u32 (stack + size)) true] ++
       seeding ++
       [EvSaveContext (length (heap w));
        EvAlloc 0x800 (tls_label name (KernelState.next_uid (kernel w))) tls;
        EvWriteTpidruro (length (heap w)) (to_u32 (tls + 0x800))]),
      (if bool_decide (is_Some (KernelState.threads (kernel w)
                                !! KernelState.next_uid (kernel w)))
       then [EvFree stack] else []).
    cbn [kernel trace KernelState.threads KernelState.waiting_threads].
    split; [|split; apply emplace_is_Some].
    clearbody seeding. rewrite <- !app_assoc. reflexivity.
  - rewrite (create_thread_failure _ _ _ _ _ _ _ _ Ha Hc) in Hrun.
    injection Hrun as <- <-. by left.
Qed.
End Registry.

Lemma pending_threads_are_registered_witness :
  exists thread r,
    KernelState.threads
      (kernel (after (platform := sample_platform)
                     (CallCreateThread 0x8000 "main" 64 16 None) empty_world))
      !! 1 = Some thread /\
    heap (after (platform := sample_platform)
                (CallCreateThread 0x8000 "main" 64 16 None) empty_world)
      !! thread = Some r.
Proof.
  apply (proj1 (pending_threads_are_registered (platform := sample_platform) _
                  (reachable_call _ _
                     (reachable_boot empty_world eq_refl eq_refl)))).
  apply (bool_decide_unpack _). vm_compute. exact I.
Defined.

(** * Further properties of thread.cpp *)

(** ** create_thread without a backend *)

Section CreateThreadMore.
Context {platform : Platform}.


End CreateThreadMore.


(** ** start_thread on a pending thread *)

Section StartThreadMore.
Context {platform : Platform}.

Lemma start_thread_created_run thid arglen argp waiting thread k m h tr :
  KernelState.waiting_threads k !! thid = Some waiting ->
  KernelState.threads k !! thid = Some thread ->
  KernelState.running_threads k !! thid = None ->
  start_thread thid arglen argp true (mkWorld k m h tr)
  = Ok SCE_KERNEL_OK
       (mkWorld
          (KernelState.set_running_threads
             (<[thid := mkThreadPtr thread]> (KernelState.running_threads k))
             (KernelState.set_waiting_threads
                (delete thid (KernelState.waiting_threads k)) k))
          m h
          (tr ++ [EvLock KernelMutex;
                  EvCreateHostThread thid (waiting_name waiting) true;
                  EvEraseWaiting thid; EvEmplaceRunning thid; EvSemWait;
                  EvUnlock KernelMutex])).
Proof.
  intros Hw Ht Hrun.
  rewrite bind_ret. unfold start_thread, find. mauto.
  rewrite Hw. mauto. rewrite Ht.
  rewrite (bool_decide_eq_true_2 (is_Some (Some thread))) by done.
  cbn [assert non_null negb]. mauto.
  rewrite bool_decide_eq_false_2 by (rewrite Hrun; by intros [? ?]).
  mauto. proj_simpl. unfold emplace. rewrite Hrun.
  rewrite <- !app_assoc. reflexivity.
Qed.

(** X2.  [start_thread] on an identifier that is pending, registered and not
    yet running, with a host thread to be had, returns SCE_KERNEL_OK: the
    identifier has left the pending set and is bound in the running set to
    a handle whose deleter holds the registered record.  The thread table,
    the records and guest memory are untouched.  The host thread bears the
    name of the pending entry and is created before the tables change; the
    wait for the signal of the trampoline comes last, with the kernel lock
    still held. *)
Theorem start_thread_moves_to_running (w : World) (thid : SceUID)
    (arglen : SceSize) (argp : Address) (waiting : WaitingThreadState)
    (thread : ptr) :
  KernelState.waiting_threads (kernel w) !! thid = Some waiting ->
  KernelState.threads (kernel w) !! thid = Some thread ->
  KernelState.running_threads (kernel w) !! thid = None ->
  exists w',
    start_thread thid arglen argp true w = Ok SCE_KERNEL_OK w' /\
    KernelState.waiting_threads (kernel w')
    = delete thid (KernelState.waiting_threads (kernel w)) /\
    KernelState.running_threads (kernel w')
    = <[thid := mkThreadPtr thread]> (KernelState.running_threads (kernel w)) /\
    KernelState.threads (kernel w') = KernelState.threads (kernel w) /\
    heap w' = heap w /\
    mem w' = mem w /\
    trace w'
    = trace w ++
      [EvLock KernelMutex;
       EvCreateHostThread thid (waiting_name waiting) true;
       EvEraseWaiting thid; EvEmplaceRunning thid; EvSemWait;
       EvUnlock KernelMutex].
Proof.
  destruct w as [k m h tr]. cbn [kernel heap mem trace]. intros Hw Ht Hrun.
  eexists. split; [by apply start_thread_created_run|].
  cbn. repeat split.
Qed.


End StartThreadMore.

Lemma start_thread_moves_to_running_witness :
  exists w',
    start_thread (platform := sample_platform) 1 0 0 true pending_world
    = Ok 0 w' /\
    KernelState.waiting_threads (kernel w')
    = delete 1 (KernelState.waiting_threads (kernel pending_world)) /\
    KernelState.running_threads (kernel w')
    = <[1 := mkThreadPtr 0]> (KernelState.running_threads (kernel pending_world)).
Proof.
  destruct (start_thread_moves_to_running (platform := sample_platform)
              pending_world 1 0 0 (mkWaiting "main") 0 eq_refl eq_refl eq_refl)
    as (w' & Hrun & Hwts & Hrts & _).
  exists w'. repeat split; assumption.
Defined.


(** ** The verdict of run_thread and its backend calls *)

Section RunThreadMore.
Context {platform : Platform}.

(** The loop of [run_thread], by cases on what a turn finds. *)
Lemma run_thread_loop_cases (thread : ptr)
    (P : bool -> World -> Outcome bool -> Prop) :
  (forall owns w, heap w !! thread = None -> P owns w (Stuck NullDereference w)) ->
  (forall owns k m h tr r,
     h !! thread = Some r -> ThreadState.to_do r = ThreadToDo.exit ->
     P owns (mkWorld k m h tr)
       (Ok true (mkWorld k m h
                   (tr ++ if owns then [EvUnlock (ThreadMutex thread)] else [])))) ->
  (forall k m h tr r,
     h !! thread = Some r -> ThreadState.to_do r <> ThreadToDo.exit ->
     P false (mkWorld k m h tr) (Stuck SystemError (mkWorld k m h tr))) ->
  (forall k m h tr r,
     h !! thread = Some r -> ThreadState.to_do r = ThreadToDo.wait ->
     P true (mkWorld k m h tr)
       (Stuck Blocked (mkWorld k m h (tr ++ [EvWait thread])))) ->
  (forall k m h tr r reply out,
     h !! thread = Some r -> ThreadState.to_do r = ThreadToDo.wait ->
     P true
       (mkWorld k m
          (<[thread := match written_by_others reply with
                       | Some v => ThreadState.set_to_do v r
                       | None => r
                       end]> h)
          ((tr ++ [EvWait thread]) ++
           match written_by_others reply with
           | Some v => [EvOthersSetToDo thread v]
           | None => []
           end)) out ->
     P true (mkWorld k m h tr) out) ->
  (forall k m h tr r,
     h !! thread = Some r ->
     ThreadState.to_do r = ThreadToDo.run \/ ThreadState.to_do r = ThreadToDo.step ->
     P true (mkWorld k m h tr)
       (Stuck Blocked (mkWorld k m h (tr ++ [EvUnlock (ThreadMutex thread)])))) ->
  (forall k m h tr r reply succeeded,
     h !! thread = Some r ->
     ThreadState.to_do r = ThreadToDo.run \/ ThreadState.to_do r = ThreadToDo.step ->
     pass_next r reply = Return succeeded ->
     P true (mkWorld k m h tr)
       (Ok succeeded (mkWorld k m (<[thread := pass_record r reply]> h)
                        (tr ++ pass_events thread r reply)))) ->
  (forall k m h tr r reply out,
     h !! thread = Some r ->
     ThreadState.to_do r = ThreadToDo.run \/ ThreadState.to_do r = ThreadToDo.step ->
     pass_next r reply = Break ->
     P false (mkWorld k m (<[thread := pass_record r reply]> h)
                (tr ++ pass_events thread r reply)) out ->
     P true (mkWorld k m h tr) out) ->
  forall env owns w, P owns w (run_thread_loop env thread owns w).
Proof.
  intros Hnull Hexit Hunowned Hblocked Hwoken Hstarved Hreturn Hbreak.
  induction env as [|reply env IH]; intros owns [k m h tr];
    (destruct (h !! thread) as [r|] eqn:Hr;
     [rewrite (run_thread_loop_turn _ _ _ _ _ _ _ r) by done
     |rewrite run_thread_loop_null by done; by apply Hnull]).
  - destruct (ThreadState.to_do r) eqn:Htd, owns; eauto.
    all: eapply Hunowned; [done|congruence].
  - destruct (ThreadState.to_do r) eqn:Htd, owns; eauto.
    all: try (eapply Hunowned; [done|congruence]).
    + destruct (pass_next r reply) eqn:Hnext; eauto.
    + destruct (pass_next r reply) eqn:Hnext; eauto.
Qed.

(** What the loop logs holds at most one backend call, and none once the
    lock has been let go. *)
Lemma run_thread_loop_calls thread env owns w :
  exists new,
    trace (world_of (run_thread_loop env thread owns w)) = trace w ++ new /\
    (length (backend_results thread new) <= 1)%nat /\
    (owns = false -> backend_results thread new = []).
Proof.
  revert env owns w.
  apply (run_thread_loop_cases thread (fun owns w out =>
    exists new,
      trace (world_of out) = trace w ++ new /\
      (length (backend_results thread new) <= 1)%nat /\
      (owns = false -> backend_results thread new = []))).
  - intros owns w _. exists []. cbn. rewrite app_nil_r. auto with lia.
  - intros owns k m h tr r _ _. eexists. split; [reflexivity|].
    destruct owns; cbn; auto with lia.
  - intros k m h tr r _ _. exists []. cbn. rewrite app_nil_r. auto with lia.
  - intros k m h tr r _ _. eexists. split; [reflexivity|]. cbn.
    split; [lia|done].
  - intros k m h tr r reply out _ _ (new & Htr & Hlen & _). cbn [trace] in *.
    eexists. split; [by rewrite Htr, <- !app_assoc|].
    rewrite !backend_results_app.
    split; [|done]. by destruct (written_by_others reply).
  - intros k m h tr r _ _. eexists. split; [reflexivity|]. cbn.
    split; [lia|done].
  - intros k m h tr r reply succeeded _ _ _. eexists. split; [reflexivity|].
    rewrite backend_results_pass. cbn. split; [lia|done].
  - intros k m h tr r reply out _ _ _ (new & Htr & _ & Hnone). cbn [trace] in *.
    eexists. split; [by rewrite Htr, <- app_assoc|].
    rewrite backend_results_app, backend_results_pass, Hnone by done.
    cbn. split; [lia|done].
Qed.

(** X4.  Whatever the environment does, the log of one call of
    [run_thread] shows at most one call of the backend that came back. *)
Theorem run_thread_calls_backend_at_most_once (env : list EnvReply)
    (thread : ptr) (w : World) :
  exists new,
    trace (world_of (run_thread env thread w)) = trace w ++ new /\
    (length (backend_results thread new) <= 1)%nat.
Proof.
  destruct w as [k m h tr]. unfold run_thread.
  rewrite emit_bind.
  destruct (run_thread_loop_calls thread env true
              (mkWorld k m h (tr ++ [EvLock (ThreadMutex thread)])))
    as (new & Htr & Hlen & _).
  exists (EvLock (ThreadMutex thread) :: new).
  cbn [trace] in *. split; [by rewrite Htr, <- app_assoc|done].
Qed.






End RunThreadMore.


(** ** copy_stack there and back *)

Section CopyStackMore.
Context {platform : Platform}.


End CopyStackMore.

